(** * Github-stats: a shallow embedding of [github_stats.py]

    The development follows the two classes of the Python module.

    - [Queries] is the request layer: [Queries.query] posts a GraphQL
      document on the asynchronous client and falls back on the blocking
      client inside its [except:] handler; [Queries.query_rest] is the
      [for _ in range(60)] retry ladder of the REST call.
    - [Stats] owns the aggregate: [Stats.get_stats] is the [while True]
      pagination loop, followed by the proportion pass, and the properties
      ([name], [languages], [repos], [issues], ...) are the lazy accessors.

    The remote service is an oracle: every awaited request consumes one
    prepared answer.  What the code prints, sends and sleeps is recorded in
    a trace of [event]s, so that "how many requests" and "how many sleeps"
    are statements about a list. *)

From Stdlib Require Import ZArith QArith Qcanon String Ascii List Lia.
From stdpp Require Import base option list gmap sets strings.

Set Warnings "-clear-no-such-hyp".

Local Open Scope Z_scope.
Local Open Scope string_scope.
Local Open Scope list_scope.

(** ** The Python run time that the module relies on *)

Module Py.

(** Exceptions that reach the code under study.  [ClientError] stands for
    whatever [aiohttp] or [requests] raise (connection failure, timeout,
    a body that is not JSON); the bare [except:] of the source does not
    tell them apart. *)
Inductive exn : Set :=
| ClientError
| ZeroDivisionError
| AssertionError.

(** Result of running a coroutine against a finite supply of answers:
    it returned, it raised, or it is still awaiting an answer that the
    supply does not hold. *)
Inductive outcome (A : Type) : Type :=
| Returned (a : A)
| Raised (e : exn)
| Pending.
Arguments Returned {A} a.
Arguments Raised {A} e.
Arguments Pending {A}.

(** [dict()] at each type of decoded JSON object. *)
Class PyDict (R : Type) : Type := dict0 : R.

(** [str.lower()], on the ASCII letters.  Bytes outside [A-Z] are kept,
    so the model agrees with Python on ASCII names. *)
Definition lower_ascii (c : ascii) : ascii :=
  let n := nat_of_ascii c in
  if ((65 <=? n)%nat && (n <=? 90)%nat)%bool then ascii_of_nat (n + 32) else c.

Fixpoint lower (s : string) : string :=
  match s with
  | EmptyString => EmptyString
  | String c s' => String (lower_ascii c) (lower s')
  end.

End Py.

(** ** class Queries *)

Module Queries.
Import Py.

(** The three documents of the query builder, kept abstract: a document
    is identified by the builder that made it and its arguments.  The
    text of [repos_overview] is the subject of [QueryText] below; the
    text of the two contribution documents is not built, and with it
    the [int(year)] of line 223 is left out. *)
Inductive document : Type :=
| repos_overview (contrib_cursor owned_cursor : option string)
| contrib_years
| all_contribs (years : list string).

Inductive transport : Set := Aiohttp | Requests.

(** Observable effects, in program order. *)
Inductive event : Type :=
| Post (via : transport) (doc : document)
| Get (via : transport) (path : string) (params : list (string * string))
| Print (msg : string)
| Sleep (secs : Z)
| EnterGetStats.

(** *** Queries.query (lines 34-66) *)

(** What one transport yields for a POST: [post(...)] or [.json()]
    raises, or the body decodes to a value; [Json None] is a body that
    decodes to [None] (JSON [null]). *)
Inductive reply (R : Type) : Type :=
| Raises (e : exn)
| Json (v : option R).
Arguments Raises {R} e.
Arguments Json {R} v.

(** One awaited GraphQL call: the answer of the asynchronous client and
    the answer the blocking client gives if it is asked. *)
Record round (R : Type) : Type := Round {
  aio : reply R;
  blocking : reply R
}.
Arguments Round {R} aio blocking.
Arguments aio {R} r.
Arguments blocking {R} r.

Definition query {R : Type} `{PyDict R} (generated_query : document)
    (net : round R) : outcome R * list event :=
  match aio net with
  | Json (Some result) =>
      (* try: ... if result is not None: return result *)
      (Returned result, [Post Aiohttp generated_query])
  | Json None =>
      (* the try block ends without returning: return dict() *)
      (Returned dict0, [Post Aiohttp generated_query])
  | Raises _ =>
      (* except: *)
      let pre := [Post Aiohttp generated_query;
                  Print "aiohttp failed for GraphQL query";
                  Post Requests generated_query] in
      match blocking net with
      | Json (Some result) => (Returned result, pre)
      | Json None => (Returned dict0, pre)
      | Raises e => (Raised e, pre) (* nothing encloses the handler *)
      end
  end.

(** *** Queries.query_rest (lines 68-115) *)

(** The body of a REST response: [.json()] raises or decodes. *)
Inductive body (R : Type) : Type :=
| BadBody (e : exn)
| Body (v : option R).
Arguments BadBody {R} e.
Arguments Body {R} v.

(** A GET either raises or carries a status and a body. *)
Inductive response (R : Type) : Type :=
| NoResponse (e : exn)
| Status (code : Z) (b : body R).
Arguments NoResponse {R} e.
Arguments Status {R} code b.

Record attempt (R : Type) : Type := Attempt {
  aio_get : response R;
  blocking_get : response R
}.
Arguments Attempt {R} aio_get blocking_get.
Arguments aio_get {R} a.
Arguments blocking_get {R} a.

(** [if path.startswith("/"): path = path[1:]] *)
Definition strip_slash (path : string) : string :=
  match path with
  | String "/" rest => rest
  | _ => path
  end.

Definition msg_202 : string := "A path returned 202. Retrying...".
Definition msg_aio_rest : string := "aiohttp failed for rest query".
Definition msg_too_many : string :=
  "There were too many 202s. Data for this repository will be incomplete.".

(** The [except:] branch of one iteration.  [None] means that the
    iteration ended without leaving the loop ([continue], or falling off
    the end of the handler); [Some o] leaves [query_rest] with [o]. *)
Definition rest_fallback {R : Type} (r : response R)
    : option (outcome (option R)) * list event :=
  match r with
  | NoResponse e => (Some (Raised e), [])
  | Status code b =>
      if decide (code = 202) then (None, [Print msg_202; Sleep 2])
      else if decide (code = 200) then
        match b with
        | Body v => (Some (Returned v), [])   (* return r_requests.json() *)
        | BadBody e => (Some (Raised e), [])
        end
      else (None, [])
  end.

(** One iteration of the [for] loop, on the already normalised path. *)
Definition rest_iteration {R : Type} (path : string)
    (params : list (string * string)) (a : attempt R)
    : option (outcome (option R)) * list event :=
  let fallback :=
    let '(o, evs) := rest_fallback (blocking_get a) in
    (o, Get Aiohttp path params :: Print msg_aio_rest
          :: Get Requests path params :: evs) in
  match aio_get a with
  | NoResponse _ => fallback
  | Status code b =>
      if decide (code = 202) then
        (None, [Get Aiohttp path params; Print msg_202; Sleep 2])
      else
        match b with
        | BadBody _ => fallback
        | Body (Some result) =>
            (Some (Returned (Some result)), [Get Aiohttp path params])
        | Body None => (None, [Get Aiohttp path params])
        end
  end.

(** [for _ in range(n)] from iteration [i] on; the answer to the
    iteration numbered [i] is [net i]. *)
Fixpoint rest_loop {R : Type} `{PyDict R} (n : nat) (i : nat) (path : string)
    (params : list (string * string)) (net : nat -> attempt R)
    : outcome (option R) * list event :=
  match n with
  | O => (Returned (Some dict0), [Print msg_too_many])
  | S n' =>
      let path := strip_slash path in
      let '(o, evs) := rest_iteration path params (net i) in
      match o with
      | Some res => (res, evs)
      | None =>
          let '(res, evs') := rest_loop n' (S i) path params net in
          (res, evs ++ evs')
      end
  end.

Definition query_rest {R : Type} `{PyDict R} (path : string)
    (params : option (list (string * string))) (net : nat -> attempt R)
    : outcome (option R) * list event :=
  (* if params is None: params = dict() *)
  rest_loop 60 0 path (default [] params) net.

(** Counting in a trace. *)
Definition is_sleep (e : event) : bool :=
  match e with Sleep _ => true | _ => false end.
Definition is_request (e : event) : bool :=
  match e with Post _ _ | Get _ _ _ => true | _ => false end.
Definition is_request_via (t : transport) (e : event) : bool :=
  match e, t with
  | Post Aiohttp _, Aiohttp | Get Aiohttp _ _, Aiohttp => true
  | Post Requests _, Requests | Get Requests _ _, Requests => true
  | _, _ => false
  end.
Definition is_enter (e : event) : bool :=
  match e with EnterGetStats => true | _ => false end.

Definition count (p : event -> bool) (tr : list event) : nat :=
  length (List.filter p tr).

Definition sleeps (tr : list event) : nat := count is_sleep tr.
Definition requests (tr : list event) : nat := count is_request tr.
Definition requests_via (t : transport) (tr : list event) : nat :=
  count (is_request_via t) tr.

(** *** Vocabulary for the properties of [query_rest] *)

(** The asynchronous client answered 202. *)
Definition busy {R : Type} (a : attempt R) : bool :=
  match aio_get a with
  | Status code _ => bool_decide (code = 202)
  | NoResponse _ => false
  end.


End Queries.

(** ** The decoded answers of the GraphQL endpoint

  One record per JSON object of the overview query (lines 124-197).  A
  field read with [.get(key, default)] is an [option]: [None] is a key
  that is absent, and the default of the source is applied where the
  field is read.  Values that are present have the type the GraphQL
  schema gives them. *)

Module Json.
Import Py.

(** [node { name color }] of a language edge. *)
Record lang_node : Type := LangNode {
  node_name : option string;
  node_color : option string
}.

(** [edges { size node }] *)
Record lang_edge : Type := LangEdge {
  edge_size : option Z;
  edge_node : option lang_node
}.

(** [languages(first: 10, ...) { edges }] *)
Record lang_conn : Type := LangConn {
  edges : option (list lang_edge)
}.

(** [nodes { nameWithOwner languages }] *)
Record repo_node : Type := RepoNode {
  nameWithOwner : option string;
  languages : option lang_conn
}.

(** [pageInfo { hasNextPage endCursor }].  For [endCursor] the outer
    [None] is an absent key and [Some None] is JSON [null]. *)
Record page_info : Type := PageInfo {
  hasNextPage : option bool;
  endCursor : option (option string)
}.

(** [repositories] and [repositoriesContributedTo]; an entry of [nodes]
    may be [null]. *)
Record repo_conn : Type := RepoConn {
  nodes : option (list (option repo_node));
  pageInfo : option page_info
}.

(** [pullRequests], [openIssues], [closedIssues] *)
Record counter : Type := Counter {
  totalCount : option Z
}.

Record viewer : Type := Viewer {
  login : option string;
  name : option string;      (* [None]: absent or [null] *)
  pullRequests : option counter;
  openIssues : option counter;
  closedIssues : option counter;
  repositories : option repo_conn;
  repositoriesContributedTo : option repo_conn
}.

(** The envelope [{"data": {"viewer": ...}}]. *)
Record envelope : Type := Envelope {
  viewer_of : option viewer
}.

Record overview : Type := Overview {
  data : option envelope
}.

#[global] Instance lang_node_dict : PyDict lang_node := LangNode None None.
#[global] Instance lang_conn_dict : PyDict lang_conn := LangConn None.
#[global] Instance page_info_dict : PyDict page_info := PageInfo None None.
#[global] Instance repo_conn_dict : PyDict repo_conn := RepoConn None None.
#[global] Instance counter_dict : PyDict counter := Counter None.
#[global] Instance viewer_dict : PyDict viewer :=
  Viewer None None None None None None None.
#[global] Instance envelope_dict : PyDict envelope := Envelope None.
#[global] Instance overview_dict : PyDict overview := Overview None.

(** [d.get(key, {})] *)
Definition get_dict {R : Type} `{PyDict R} (field : option R) : R :=
  default dict0 field.

(** Answers of the two contribution queries (lines 435-451), with the
    chains of [.get(key, {})] collapsed to the one field that is read:
    [None] is a key absent at some level of the chain. *)
Record years_reply : Type := YearsReply {
  contributionYears : option (list string)
}.

(** One [year<Y>] alias of the batched query. *)
Record year_entry : Type := YearEntry {
  totalContributions : option Z
}.

(** [data.viewer] of the batched answer, as the values of its aliases. *)
Record contribs_reply : Type := ContribsReply {
  by_year : option (list year_entry)
}.

#[global] Instance years_reply_dict : PyDict years_reply := YearsReply None.
#[global] Instance contribs_reply_dict : PyDict contribs_reply :=
  ContribsReply None.

End Json.

(** ** class Stats *)

Module Stats.
Import Py Queries.

(** A value of the [self._languages] dictionary: the inner dictionary
    with keys ["size"], ["occurrences"], ["color"] and, once line 362 has
    run, ["prop"].  Proportions are exact rationals: the model keeps the
    arithmetic of line 362 and leaves out the rounding of floats. *)
Record lang_stat : Type := LangStat {
  size : Z;
  occurrences : Z;
  color : option string;
  prop : option Qc
}.

(** The attributes assigned by [__init__] (lines 261-272).  A repository
    identifier is what [repo.get("nameWithOwner")] returns, hence an
    [option string].  [_issues] and [_prs] are slots like the others:
    the accessors test them against [None]. *)
Record t : Type := Self {
  _ignore_forked_repos : bool;
  _exclude_repos : gset (option string);
  _exclude_langs : gset string;
  _name : option string;
  _total_contributions : option Z;
  _languages : option (gmap string lang_stat);
  _repos : option (gset (option string));
  _issues : option Z;
  _prs : option Z
}.

Definition init (exclude_repos : option (gset (option string)))
    (exclude_langs : option (gset string)) (ignore_forked_repos : bool) : t :=
  {| _ignore_forked_repos := ignore_forked_repos;
     _exclude_repos := default ∅ exclude_repos;
     _exclude_langs := default ∅ exclude_langs;
     _name := None;
     _total_contributions := None;
     _languages := None;
     _repos := None;
     _issues := Some 0;
     _prs := Some 0 |}.

(** Attribute assignment. *)
Definition set_name (v : option string) (s : t) : t :=
  Self (_ignore_forked_repos s) (_exclude_repos s) (_exclude_langs s)
       v (_total_contributions s) (_languages s) (_repos s) (_issues s) (_prs s).
Definition set_total_contributions (v : option Z) (s : t) : t :=
  Self (_ignore_forked_repos s) (_exclude_repos s) (_exclude_langs s)
       (_name s) v (_languages s) (_repos s) (_issues s) (_prs s).
Definition set_languages (v : option (gmap string lang_stat)) (s : t) : t :=
  Self (_ignore_forked_repos s) (_exclude_repos s) (_exclude_langs s)
       (_name s) (_total_contributions s) v (_repos s) (_issues s) (_prs s).
Definition set_repos (v : option (gset (option string))) (s : t) : t :=
  Self (_ignore_forked_repos s) (_exclude_repos s) (_exclude_langs s)
       (_name s) (_total_contributions s) (_languages s) v (_issues s) (_prs s).
Definition set_issues (v : option Z) (s : t) : t :=
  Self (_ignore_forked_repos s) (_exclude_repos s) (_exclude_langs s)
       (_name s) (_total_contributions s) (_languages s) (_repos s) v (_prs s).
Definition set_prs (v : option Z) (s : t) : t :=
  Self (_ignore_forked_repos s) (_exclude_repos s) (_exclude_langs s)
       (_name s) (_total_contributions s) (_languages s) (_repos s) (_issues s) v.

(** The dictionary and the set that lines 292-293 have assigned; the
    loop below only runs after them, so the [∅] of a [None] slot is
    never read. *)
Definition the_languages (s : t) : gmap string lang_stat :=
  default ∅ (_languages s).
Definition the_repos (s : t) : gset (option string) :=
  default ∅ (_repos s).

(** *** The body of [for lang in ...] (lines 332-344) *)

(** [lang.get("node", {}).get("name", "Other")] *)
Definition lang_name (lang : Json.lang_edge) : string :=
  default "Other" (Json.node_name (Json.get_dict (Json.edge_node lang))).

(** [lang.get("size", 0)] *)
Definition lang_size (lang : Json.lang_edge) : Z :=
  default 0 (Json.edge_size lang).

(** [lang.get("node", {}).get("color")] *)
Definition lang_color (lang : Json.lang_edge) : option string :=
  Json.node_color (Json.get_dict (Json.edge_node lang)).

Definition add_language (exclude_langs_lower : gset string)
    (languages : gmap string lang_stat) (lang : Json.lang_edge)
    : gmap string lang_stat :=
  let name := lang_name lang in
  if decide (lower name ∈ exclude_langs_lower) then languages
  else
    match languages !! name with
    | Some v =>
        <[name := LangStat (size v + lang_size lang) (occurrences v + 1)
                           (color v) (prop v)]> languages
    | None =>
        <[name := LangStat (lang_size lang) 1 (lang_color lang) None]> languages
    end.

(** [repo.get("languages", {}).get("edges", [])] *)
Definition repo_edges (repo : Json.repo_node) : list Json.lang_edge :=
  default [] (Json.edges (Json.get_dict (Json.languages repo))).

(** *** The body of [for repo in repos] (lines 324-344)

    [await self.languages] at line 333 finds the slot assigned by line
    292 and returns that dictionary; it is read here as the attribute. *)
Definition add_repo (exclude_langs_lower : gset string) (self : t)
    (repo : option Json.repo_node) : t :=
  match repo with
  | None => self
  | Some repo =>
      let name := Json.nameWithOwner repo in
      if decide (name ∈ the_repos self ∨ name ∈ _exclude_repos self) then self
      else
        let self := set_repos (Some ({[name]} ∪ the_repos self)) self in
        set_languages
          (Some (foldl (add_language exclude_langs_lower)
                       (the_languages self) (repo_edges repo)))
          self
  end.

(** *** One round of the [while True] loop, after the answer came
    (lines 305-344) *)

Definition viewer_of (raw_results : Json.overview) : Json.viewer :=
  Json.get_dict (Json.viewer_of (Json.get_dict (Json.data raw_results))).

Definition owned_repos (viewer : Json.viewer) : Json.repo_conn :=
  Json.get_dict (Json.repositories viewer).
Definition contrib_repos (viewer : Json.viewer) : Json.repo_conn :=
  Json.get_dict (Json.repositoriesContributedTo viewer).

(** [viewer.get(key, {}).get("totalCount", 0)] *)
Definition total_count (c : option Json.counter) : Z :=
  default 0 (Json.totalCount (Json.get_dict c)).

(** Lines 308-310. *)
Definition display_name (viewer : Json.viewer) : string :=
  match Json.name viewer with
  | Some n => n
  | None => default "No Name" (Json.login viewer)
  end.

(** Lines 319-321. *)
Definition candidates (ignore_forked_repos : bool) (viewer : Json.viewer)
    : list (option Json.repo_node) :=
  let repos := default [] (Json.nodes (owned_repos viewer)) in
  if negb ignore_forked_repos
  then repos ++ default [] (Json.nodes (contrib_repos viewer))
  else repos.

Definition absorb (exclude_langs_lower : gset string) (self : t)
    (raw_results : Json.overview) : t :=
  let viewer := viewer_of raw_results in
  let self := set_name (Some (display_name viewer)) self in
  let issuesO := total_count (Json.openIssues viewer) in
  let issuesC := total_count (Json.closedIssues viewer) in
  let self := set_issues (Some (issuesC + issuesO)) self in
  let self := set_prs (Some (total_count (Json.pullRequests viewer))) self in
  foldl (add_repo exclude_langs_lower) self
        (candidates (_ignore_forked_repos self) viewer).

(** [conn.get("pageInfo", {}).get("hasNextPage", False)] *)
Definition has_next (conn : Json.repo_conn) : bool :=
  default false (Json.hasNextPage (Json.get_dict (Json.pageInfo conn))).

(** The condition of lines 346-348. *)
Definition more_pages (raw_results : Json.overview) : bool :=
  has_next (owned_repos (viewer_of raw_results))
  || has_next (contrib_repos (viewer_of raw_results)).

(** [conn.get("pageInfo", {}).get("endCursor", previous)] *)
Definition next_cursor (conn : Json.repo_conn) (previous : option string)
    : option string :=
  default previous (Json.endCursor (Json.get_dict (Json.pageInfo conn))).

(** *** What a coroutine of [Stats] leaves behind *)

Record run (A : Type) : Type := Run {
  result : outcome A;
  self_after : t;
  net_after : list (round Json.overview);
  trace : list event
}.
Arguments Run {A} result self_after net_after trace.
Arguments result {A} r.
Arguments self_after {A} r.
Arguments net_after {A} r.
Arguments trace {A} r.

(** *** The [while True] loop (lines 299-356) *)

(** How one round of the loop ends: at the [else: break], back at the
    [await] of line 300 with the cursors of lines 349-354, or with the
    exception of the request. *)
Inductive round_end : Type :=
| Break (self : t)
| Again (self : t) (next_owned next_contrib : option string)
| Fails (e : exn) (self : t).

(** One round: the request of line 300 with its answer, then lines
    305-356. *)
Definition overview_round (exclude_langs_lower : gset string) (self : t)
    (next_owned next_contrib : option string)
    (answer : round Json.overview) : round_end * list event :=
  let '(res, evs) := query (repos_overview next_contrib next_owned) answer in
  match res with
  | Returned raw_results =>
      let self := absorb exclude_langs_lower self raw_results in
      if more_pages raw_results then
        let viewer := viewer_of raw_results in
        (Again self (next_cursor (owned_repos viewer) next_owned)
                    (next_cursor (contrib_repos viewer) next_contrib), evs)
      else (Break self, evs)
  | Raised e => (Fails e self, evs)
  | Pending => (Fails ClientError self, evs) (* [query] never yields it *)
  end.

Fixpoint pages (exclude_langs_lower : gset string) (self : t)
    (next_owned next_contrib : option string)
    (net : list (round Json.overview)) : run unit :=
  match net with
  | [] => Run Pending self [] []
  | answer :: net' =>
      let '(e, evs) :=
        overview_round exclude_langs_lower self next_owned next_contrib answer in
      match e with
      | Break self => Run (Returned ()) self net' evs
      | Again self next_owned next_contrib =>
          let r := pages exclude_langs_lower self next_owned next_contrib net' in
          Run (result r) (self_after r) (net_after r) (evs ++ trace r)
      | Fails e self => Run (Raised e) self net' evs
      end
  end.

(** *** Lines 360-362 *)

(** [sum([v.get("size", 0) for v in self._languages.values()])] *)
Definition langs_total (languages : gmap string lang_stat) : Z :=
  foldr (λ kv acc, size kv.2 + acc) 0 (map_to_list languages).

(** [100 * (v.get("size", 0) / langs_total)] *)
Definition proportion (langs_total : Z) (v : lang_stat) : Qc :=
  (Q2Qc (inject_Z 100) * (Q2Qc (inject_Z (size v)) / Q2Qc (inject_Z langs_total)))%Qc.

Definition with_prop (langs_total : Z) (v : lang_stat) : lang_stat :=
  LangStat (size v) (occurrences v) (color v) (Some (proportion langs_total v)).

(** The [for] loop of line 361 divides at its first entry: on a table
    that is not empty and sums to zero it raises before any ["prop"] is
    stored; on the empty table its body never runs. *)
Definition proportions (self : t) : outcome unit * t :=
  let languages := the_languages self in
  let total := langs_total languages in
  if decide (languages = ∅) then (Returned (), self)
  else if decide (total = 0) then (Raised ZeroDivisionError, self)
  else (Returned (), set_languages (Some (with_prop total <$> languages)) self).

(** *** Stats.get_stats (lines 288-362) *)

(** Lines 292-295, up to the first [await]. *)
Definition enter_get_stats (self : t) : t :=
  let self := set_languages (Some ∅) self in
  set_repos (Some ∅) self.

Definition exclude_langs_lower (self : t) : gset string :=
  set_map lower (_exclude_langs self).

Definition get_stats (self : t) (net : list (round Json.overview)) : run unit :=
  let self := enter_get_stats self in
  let r := pages (exclude_langs_lower self) self None None net in
  match result r with
  | Returned _ =>
      let '(res, self) := proportions (self_after r) in
      Run res self (net_after r) (EnterGetStats :: trace r)
  | _ => Run (result r) (self_after r) (net_after r) (EnterGetStats :: trace r)
  end.

(** *** The properties (lines 364-452)

    A property is a coroutine over the object and the supply of
    answers; [let*] sequences two of them, stopping at the first that
    does not return. *)
Definition coroutine (A : Type) : Type :=
  t -> list (round Json.overview) -> run A.

Definition ret {A : Type} (a : A) : coroutine A :=
  fun self net => Run (Returned a) self net [].

Definition raise {A : Type} (e : exn) : coroutine A :=
  fun self net => Run (Raised e) self net [].

Definition attr {A : Type} (slot : t -> A) : coroutine A :=
  fun self net => Run (Returned (slot self)) self net [].

Definition bind {A B : Type} (m : coroutine A) (k : A -> coroutine B)
    : coroutine B :=
  fun self net =>
    let r := m self net in
    match result r with
    | Returned a =>
        let r' := k a (self_after r) (net_after r) in
        Run (result r') (self_after r') (net_after r') (trace r ++ trace r')
    | Raised e => Run (Raised e) (self_after r) (net_after r) (trace r)
    | Pending => Run Pending (self_after r) (net_after r) (trace r)
    end.

Notation "'let*' x ':=' m 'in' k" := (bind m (fun x => k))
  (at level 10, x pattern, m at level 100, k at level 200, only parsing).

(** [assert slot is not None; return slot] *)
Definition assert_some {A : Type} (slot : t -> option A) : coroutine A :=
  let* v := attr slot in
  match v with
  | Some a => ret a
  | None => raise AssertionError
  end.

(** Lines 364-373. *)
Definition name : coroutine string :=
  let* v := attr _name in
  match v with
  | Some n => ret n
  | None => let* _ := get_stats in assert_some _name
  end.

(** Lines 375-384. *)
Definition languages : coroutine (gmap string lang_stat) :=
  let* v := attr _languages in
  match v with
  | Some l => ret l
  | None => let* _ := get_stats in assert_some _languages
  end.

(** Line 395: [{k: v.get("prop", 0) for (k, v) in ...}] *)
Definition props (l : gmap string lang_stat) : gmap string Qc :=
  (fun v => default (Q2Qc 0) (prop v)) <$> l.

(** Lines 386-395. *)
Definition languages_proportional : coroutine (gmap string Qc) :=
  let* v := attr _languages in
  match v with
  | Some l => ret (props l)
  | None => let* _ := get_stats in
            let* l := assert_some _languages in ret (props l)
  end.

(** Lines 397-406. *)
Definition repos : coroutine (gset (option string)) :=
  let* v := attr _repos in
  match v with
  | Some r => ret r
  | None => let* _ := get_stats in assert_some _repos
  end.

(** Lines 408-415: the value of the slot is returned as it is. *)
Definition issues : coroutine (option Z) :=
  let* v := attr _issues in
  match v with
  | Some _ => attr _issues
  | None => let* _ := get_stats in attr _issues
  end.

(** Lines 417-424. *)
Definition prs : coroutine (option Z) :=
  let* v := attr _prs in
  match v with
  | Some _ => attr _prs
  | None => let* _ := get_stats in attr _prs
  end.

(** Lines 426-452.  The two requests have answers of their own types,
    so they are arguments rather than part of the overview supply. *)
Definition year_total (year : Json.year_entry) : Z :=
  default 0 (Json.totalContributions year).

Definition total_contributions (self : t)
    (years_answer : round Json.years_reply)
    (contribs_answer : round Json.contribs_reply)
    : outcome Z * t * list event :=
  match _total_contributions self with
  | Some total => (Returned total, self, [])
  | None =>
      let self := set_total_contributions (Some 0) self in
      let '(res, evs) := query contrib_years years_answer in
      match res with
      | Returned reply =>
          let years := default [] (Json.contributionYears reply) in
          let '(res', evs') := query (all_contribs years) contribs_answer in
          match res' with
          | Returned reply' =>
              let total :=
                foldl (fun acc year => acc + year_total year) 0
                      (default [] (Json.by_year reply')) in
              (Returned total, set_total_contributions (Some total) self,
               evs ++ evs')
          | Raised e => (Raised e, self, evs ++ evs')
          | Pending => (Pending, self, evs ++ evs')
          end
      | Raised e => (Raised e, self, evs)
      | Pending => (Pending, self, evs)
      end
  end.

(** The fields behind the properties that lead to [get_stats]. *)
Inductive field : Set :=
| FName | FLanguages | FLanguagesProportional | FRepos | FIssues | FPrs.

(** What a read hands to its caller. *)
Inductive value : Type :=
| VName (n : string)
| VLanguages (l : gmap string lang_stat)
| VProps (p : gmap string Qc)
| VRepos (r : gset (option string))
| VCount (c : option Z).

Definition fmap_run {A B : Type} (f : A -> B) (m : coroutine A) : coroutine B :=
  let* a := m in ret (f a).

Definition read (f : field) : coroutine value :=
  match f with
  | FName => fmap_run VName name
  | FLanguages => fmap_run VLanguages languages
  | FLanguagesProportional => fmap_run VProps languages_proportional
  | FRepos => fmap_run VRepos repos
  | FIssues => fmap_run VCount issues
  | FPrs => fmap_run VCount prs
  end.

(** Reads one after the other, each awaited before the next begins;
    the values read so far are kept, and a read that does not return
    ends the sequence with its outcome. *)
Fixpoint read_all (fs : list field) : coroutine (list value) :=
  match fs with
  | [] => ret []
  | f :: fs' =>
      let* v := read f in
      let* vs := read_all fs' in
      ret (v :: vs)
  end.

(** Number of executions of [get_stats] in a trace. *)
Definition executions (tr : list event) : nat := count is_enter tr.

(** *** Vocabulary for the properties of the loop *)

(** The decoded answer of a round, if the request returns one.  The
    document plays no part in what [query] returns. *)
Definition decoded (a : round Json.overview) : option Json.overview :=
  match fst (query (repos_overview None None) a) with
  | Returned raw_results => Some raw_results
  | _ => None
  end.

(** The pages that the loop absorbs from a supply of answers: up to and
    including the first one that reports no next page, or up to a failed
    request. *)
Fixpoint absorbed (net : list (round Json.overview)) : list Json.overview :=
  match net with
  | [] => []
  | a :: net' =>
      match decoded a with
      | Some raw => raw :: (if more_pages raw then absorbed net' else [])
      | None => []
      end
  end.

(** The round goes on to another request, or is the last one. *)
Definition continues (a : round Json.overview) : bool :=
  match decoded a with
  | Some raw => more_pages raw
  | None => false
  end.

Definition stops (a : round Json.overview) : bool :=
  match decoded a with
  | Some raw => negb (more_pages raw)
  | None => false
  end.

(** [issuesC + issuesO] and the pull-request total of one page. *)
Definition page_issues (raw : Json.overview) : Z :=
  total_count (Json.closedIssues (viewer_of raw))
  + total_count (Json.openIssues (viewer_of raw)).

Definition page_prs (raw : Json.overview) : Z :=
  total_count (Json.pullRequests (viewer_of raw)).

(** The identifiers of a list of candidate repositories, of a page, and
    of all the pages a pass absorbs. *)
Definition ids (rs : list (option Json.repo_node)) : gset (option string) :=
  list_to_set (Json.nameWithOwner <$> omap id rs).

Definition page_ids (ignore_forked_repos : bool) (raw : Json.overview)
    : gset (option string) :=
  ids (candidates ignore_forked_repos (viewer_of raw)).

Definition candidate_ids (self : t) (net : list (round Json.overview))
    : gset (option string) :=
  ⋃ (page_ids (_ignore_forked_repos self) <$> absorbed net).

(** A language table without any name that the exclusion set matches. *)
Definition clean (exclude_langs_lower : gset string)
    (languages : gmap string lang_stat) : Prop :=
  forall name, lower name ∈ exclude_langs_lower -> languages !! name = None.







(** The slots that the loop over the repositories leaves alone. *)
Definition same_scalars (s s' : t) : Prop :=
  _name s' = _name s /\ _issues s' = _issues s /\ _prs s' = _prs s
  /\ _total_contributions s' = _total_contributions s
  /\ _exclude_repos s' = _exclude_repos s
  /\ _exclude_langs s' = _exclude_langs s
  /\ _ignore_forked_repos s' = _ignore_forked_repos s.

(** The object when the loop of [get_stats] is left. *)
Definition at_loop_exit (self : t) (net : list (round Json.overview)) : t :=
  foldl (absorb (exclude_langs_lower self)) (enter_get_stats self) (absorbed net).

End Stats.

(** ** Reads that overlap: the [asyncio] event loop

  [asyncio] runs one task at a time and switches only where a task
  awaits the network, which in [Stats] is the request of line 300.  A
  task that reads a property is therefore in one of three states: not
  yet run, suspended at line 300 inside the [get_stats] it started, or
  finished.  The object [self] is shared by all tasks.  The events of a
  request are recorded when its answer is consumed. *)

Module EventLoop.
Import Py Queries Stats.

(** The fast path of each property: the value returned without calling
    [get_stats], if the slot allows it. *)
Definition cached (f : field) (self : t) : option value :=
  match f with
  | FName => VName <$> _name self
  | FLanguages => VLanguages <$> _languages self
  | FLanguagesProportional => (fun l => VProps (props l)) <$> _languages self
  | FRepos => VRepos <$> _repos self
  | FIssues => (fun _ => VCount (_issues self)) <$> _issues self
  | FPrs => (fun _ => VCount (_prs self)) <$> _prs self
  end.

(** What each property does once its [await self.get_stats()] has
    returned. *)
Definition finish (f : field) (self : t) : outcome value :=
  match f with
  | FName => from_option (fun n => Returned (VName n)) (Raised AssertionError) (_name self)
  | FLanguages =>
      from_option (fun l => Returned (VLanguages l)) (Raised AssertionError)
                  (_languages self)
  | FLanguagesProportional =>
      from_option (fun l => Returned (VProps (props l))) (Raised AssertionError)
                  (_languages self)
  | FRepos => from_option (fun r => Returned (VRepos r)) (Raised AssertionError) (_repos self)
  | FIssues => Returned (VCount (_issues self))
  | FPrs => Returned (VCount (_prs self))
  end.

Inductive task : Type :=
| Created (f : field)
| Suspended (f : field) (exclude_langs_lower : gset string)
            (next_owned next_contrib : option string)
| Finished (f : field) (v : outcome value).

Record state : Type := State {
  self : t;
  tasks : list task;
  log : list event
}.

(** [asyncio.gather] of the reads of [fs] on a shared object. *)
Definition spawn (obj : t) (fs : list field) : state :=
  State obj (Created <$> fs) [].

(** The event loop either runs a created task up to its first
    suspension or hands an answer to a suspended one. *)
Inductive action : Type :=
| Start (i : nat)
| Deliver (i : nat) (answer : round Json.overview).

(** From the call of the property to its first suspension. *)
Definition start (f : field) (obj : t) : task * t * list event :=
  match cached f obj with
  | Some v => (Finished f (Returned v), obj, [])
  | None =>
      let obj := enter_get_stats obj in
      (Suspended f (Stats.exclude_langs_lower obj) None None, obj, [EnterGetStats])
  end.

(** From an answer to the next suspension or to the end of the read. *)
Definition resume (f : field) (exclude_langs_lower : gset string)
    (next_owned next_contrib : option string) (obj : t)
    (answer : round Json.overview) : task * t * list event :=
  let '(e, evs) := overview_round exclude_langs_lower obj next_owned next_contrib answer in
  match e with
  | Again obj next_owned next_contrib =>
      (Suspended f exclude_langs_lower next_owned next_contrib, obj, evs)
  | Break obj =>
      let '(res, obj) := proportions obj in
      match res with
      | Returned _ => (Finished f (finish f obj), obj, evs)
      | Raised e => (Finished f (Raised e), obj, evs)
      | Pending => (Finished f Pending, obj, evs)
      end
  | Fails e obj => (Finished f (Raised e), obj, evs)
  end.

Definition step (st : state) (a : action) : state :=
  match a with
  | Start i =>
      match tasks st !! i with
      | Some (Created f) =>
          let '(tk, obj, evs) := start f (self st) in
          State obj (<[i := tk]> (tasks st)) (log st ++ evs)
      | _ => st
      end
  | Deliver i answer =>
      match tasks st !! i with
      | Some (Suspended f ex next_owned next_contrib) =>
          let '(tk, obj, evs) := resume f ex next_owned next_contrib (self st) answer in
          State obj (<[i := tk]> (tasks st)) (log st ++ evs)
      | _ => st
      end
  end.

Definition exec (schedule : list action) (st : state) : state :=
  foldl step st schedule.

(** Whether a read of [f] on a new object calls [get_stats]. *)
Definition starts_pass (f : field) : bool :=
  match f with
  | FIssues | FPrs => false
  | _ => true
  end.

(** A read in two steps: the fast path, or a whole pass followed by
    the end of the property. *)
Definition read_in_steps (f : field) (obj : t)
    (net : list (round Json.overview)) : run value :=
  match cached f obj with
  | Some v => Run (Returned v) obj net []
  | None =>
      let r := get_stats obj net in
      Run (match result r with
           | Returned _ => finish f (self_after r)
           | Raised e => Raised e
           | Pending => Pending
           end)
          (self_after r) (net_after r) (trace r)
  end.

(** Every slot behind a property holds a value. *)
Definition populated (obj : t) : Prop :=
  is_Some (_name obj) /\ is_Some (_languages obj) /\ is_Some (_repos obj)
  /\ is_Some (_issues obj) /\ is_Some (_prs obj).

(** No task is waiting to be started. *)
Definition all_started (st : state) : Prop :=
  forall i f, tasks st !! i <> Some (Created f).

(** The end of a read whose pass left the loop with the object [s]. *)
Definition closing (f : field) (s : t) : outcome value :=
  match fst (proportions s) with
  | Returned _ => finish f (snd (proportions s))
  | Raised e => Raised e
  | Pending => Pending
  end.

End EventLoop.

(** ** What the answers report, read off the JSON

  The definitions of this module do not go through the code of
  [get_stats]: they say, in terms of the decoded pages alone, which
  repositories and which language edges a pass is expected to count.
  The theorems on the repository set and on the language table compare
  the object that [get_stats] leaves with them. *)

Module Reported.
Import Py.

(** The repositories that a connection lists, [null] entries left out. *)
Definition nodes_of (conn : option Json.repo_conn) : list Json.repo_node :=
  match conn with
  | Some (Json.RepoConn (Some ns) _) => omap id ns
  | _ => []
  end.

(** The repositories that a page lists: those of [repositories], then,
    unless contributions are ignored, those of
    [repositoriesContributedTo]. *)
Definition listed (ignore_forked_repos : bool) (raw : Json.overview)
    : list Json.repo_node :=
  match Json.data raw with
  | Some (Json.Envelope (Some v)) =>
      nodes_of (Json.repositories v)
      ++ (if ignore_forked_repos then []
          else nodes_of (Json.repositoriesContributedTo v))
  | _ => []
  end.

(** The first listing of every identifier that is not in [seen]. *)
Fixpoint first_listings (seen : gset (option string)) (rs : list Json.repo_node)
    : list Json.repo_node :=
  match rs with
  | [] => []
  | r :: rs' =>
      if decide (Json.nameWithOwner r ∈ seen) then first_listings seen rs'
      else r :: first_listings ({[Json.nameWithOwner r]} ∪ seen) rs'
  end.

(** The language edges of a repository. *)
Definition edges_of (r : Json.repo_node) : list Json.lang_edge :=
  match Json.languages r with
  | Some (Json.LangConn (Some es)) => es
  | _ => []
  end.

(** The key, the bytes and the colour of an edge: an edge without a
    node, or whose node has no name, goes under [Other]; an edge without
    a size has 0 bytes. *)
Definition key_of (e : Json.lang_edge) : string :=
  match Json.edge_node e with
  | Some (Json.LangNode (Some n) _) => n
  | _ => "Other"
  end.

Definition bytes_of (e : Json.lang_edge) : Z :=
  match Json.edge_size e with
  | Some z => z
  | None => 0
  end.

Definition colour_of (e : Json.lang_edge) : option string :=
  match Json.edge_node e with
  | Some n => Json.node_color n
  | None => None
  end.

(** All the repositories that the absorbed pages of a pass list, in the
    order of the pages. *)
Definition reported (self : Stats.t) (net : list (Queries.round Json.overview))
    : list Json.repo_node :=
  concat (listed (Stats._ignore_forked_repos self) <$> Stats.absorbed net).

(** The repositories that count: the first listing of every identifier
    that is not excluded. *)
Definition counted (self : Stats.t) (net : list (Queries.round Json.overview))
    : list Json.repo_node :=
  first_listings (Stats._exclude_repos self) (reported self net).

(** An edge whose key is matched, in lower case, by no excluded
    language. *)
Definition included (self : Stats.t) (e : Json.lang_edge) : Prop :=
  forall excluded, excluded ∈ Stats._exclude_langs self ->
                   lower (key_of e) <> lower excluded.

#[global] Instance included_dec (self : Stats.t) (e : Json.lang_edge)
    : Decision (included self e).
Proof.
  unfold included.
  destruct (decide (set_Forall (fun excluded => lower (key_of e) <> lower excluded)
                               (Stats._exclude_langs self))) as [Hall|Hnot].
  - left. exact Hall.
  - right. intros Hall. apply Hnot. exact Hall.
Defined.

(** The edges that count: the included edges of the repositories that
    count. *)
Definition merged_edges (self : Stats.t) (net : list (Queries.round Json.overview))
    : list Json.lang_edge :=
  filter (included self) (concat (edges_of <$> counted self net)).

(** The edges of a list that go under the key [k]. *)
Definition under (k : string) (es : list Json.lang_edge) : list Json.lang_edge :=
  filter (fun e => key_of e = k) es.

(** What a list of edges under one key amounts to: no entry for no
    edge, else the sum of the bytes, the number of edges and the colour
    of the first edge. *)
Definition tally (es : list Json.lang_edge) : option (Z * Z * option string) :=
  match es with
  | [] => None
  | e0 :: _ =>
      Some (foldr Z.add 0 (bytes_of <$> es), Z.of_nat (length es), colour_of e0)
  end.

(** Size, occurrences and colour of an entry of the language table. *)
Definition entry (v : Stats.lang_stat) : Z * Z * option string :=
  (Stats.size v, Stats.occurrences v, Stats.color v).

End Reported.

(** ** Concrete answers used by the examples below *)

Module Sample.
Import Py Queries.

#[global] Instance text_dict : PyDict string := "{}".

(** A REST endpoint that answers 202 three times and then 200. *)
Definition three_202_then_200 (i : nat) : attempt string :=
  if (i <? 3)%nat
  then Attempt (Status 202 (Body None)) (NoResponse ClientError)
  else Attempt (Status 200 (Body (Some "payload"))) (NoResponse ClientError).

(** A REST endpoint that never stops answering 202. *)
Definition always_202 (i : nat) : attempt string :=
  Attempt (Status 202 (Body None)) (NoResponse ClientError).



(** Both clients fail. *)
Definition both_fail : round Json.overview :=
  Round (Raises ClientError) (Raises ClientError).

(** Builders for overview pages. *)
Definition edge (language : string) (bytes : Z) : Json.lang_edge :=
  Json.LangEdge (Some bytes) (Some (Json.LangNode (Some language) None)).

Definition repo (id : string) (es : list Json.lang_edge) : option Json.repo_node :=
  Some (Json.RepoNode (Some id) (Some (Json.LangConn (Some es)))).

Definition conn (rs : list (option Json.repo_node)) (more : bool)
    (cursor : option (option string)) : Json.repo_conn :=
  Json.RepoConn (Some rs) (Some (Json.PageInfo (Some more) cursor)).

Definition page (open closed prs : Z) (owned contrib : Json.repo_conn)
    : Json.overview :=
  Json.Overview (Some (Json.Envelope (Some
    (Json.Viewer (Some "octocat") None (Some (Json.Counter (Some prs)))
       (Some (Json.Counter (Some open))) (Some (Json.Counter (Some closed)))
       (Some owned) (Some contrib))))).

(** The asynchronous client answers with the page. *)
Definition ok (raw : Json.overview) : round Json.overview :=
  Round (Json (Some raw)) (Raises ClientError).

(** A first page with 1 open and 2 closed issues and 3 pull requests,
    whose owned collection goes on and gives no cursor; a last page with
    10, 20 and 30.  The repository [a/b] is in both collections of the
    first page and again on the last. *)
Definition first_page : Json.overview :=
  page 1 2 3
    (conn [repo "a/b" [edge "Python" 10; edge "C" 30]] true None)
    (conn [repo "a/b" [edge "C" 5]; repo "x/y" [edge "C" 10; edge "Go" 40]]
          false (Some (Some "Y3Vyc29yOjI="))).

Definition last_page : Json.overview :=
  page 10 20 30
    (conn [repo "a/b" [edge "C" 7]; repo "secret/z" [edge "Rust" 99]] false (Some None))
    (conn [] false (Some None)).

Definition two_pages : list (round Json.overview) := [ok first_page; ok last_page].

(** An object that excludes the language [python] and the repository
    [secret/z]. *)
Definition picky : Stats.t :=
  Stats.init (Some {[Some "secret/z"]}) (Some {["python"]}) false.

(** A single page whose only repository reports one language of 0
    bytes. *)
Definition zero_bytes_page : Json.overview :=
  page 0 0 0 (conn [repo "a/b" [edge "Text" 0]] false None) (conn [] false None).

(** A new object with the defaults of [__init__]. *)
Definition fresh : Stats.t := Stats.init None None false.

(** Three pages of an account with three pages of owned repositories
    and a single contributed one.  The first page lists the whole
    contributed collection and gives its cursor; on the second page that
    collection has nothing further, which the service reports with an
    [endCursor] of [null]; the third page is what the service answers
    to a request whose contributed cursor is [null] again. *)
Definition cursor_page_1 : Json.overview :=
  page 1 2 3
    (conn [repo "a/b" [edge "C" 30]] true (Some (Some "o1")))
    (conn [repo "x/y" [edge "Go" 40]] false (Some (Some "c1"))).

Definition cursor_page_2 : Json.overview :=
  page 1 2 3
    (conn [repo "c/d" [edge "C" 5]] true (Some (Some "o2")))
    (conn [] false (Some None)).

Definition cursor_page_3 : Json.overview :=
  page 1 2 3
    (conn [repo "e/f" [edge "C" 1]] false (Some (Some "o3")))
    (conn [repo "x/y" [edge "Go" 40]] false (Some (Some "c1"))).

Definition three_cursor_pages : list (round Json.overview) :=
  [ok cursor_page_1; ok cursor_page_2; ok cursor_page_3].

(** A page like the second one whose contributed collection carries no
    [endCursor] key at all. *)
Definition cursor_page_2_no_key : Json.overview :=
  page 1 2 3
    (conn [repo "c/d" [edge "C" 5]] true (Some (Some "o2")))
    (conn [] false None).

(** A single page whose only repository reports four edges: one with
    no field at all, one whose node has a colour and no name, one that
    is complete, and one without a size. *)
Definition ragged_page : Json.overview :=
  page 0 0 0
    (conn [repo "a/b"
             [Json.LangEdge None None;
              Json.LangEdge (Some 10) (Some (Json.LangNode None (Some "#ffffff")));
              edge "C" 30;
              Json.LangEdge None (Some (Json.LangNode (Some "Go") None))]]
          false None)
    (conn [] false None).

End Sample.

(** ** The text of the overview query (lines 117-197) *)

Module QueryText.

(** The double quote, character 34. *)
Definition quote_char : ascii := ascii_of_nat 34.

(** The conditional of lines 144 and 176: [null] for no cursor, else
    the cursor between two double quotes. *)
Definition render_cursor (cursor : option string) : string :=
  match cursor with
  | None => "null"
  | Some c => String quote_char (c +:+ String quote_char EmptyString)
  end.

(** The three pieces of the template between its two cursors, with the
    doubled braces of the f-string written once. *)
Definition overview_head : string := "{
  viewer {
    login,
    name,
    pullRequests(first: 1) {
        totalCount
    }
    openIssues: issues(states: OPEN) {
        totalCount
    }
    closedIssues: issues(states: CLOSED) {
        totalCount
    }
    repositories(
        first: 100,
        orderBy: {
            field: UPDATED_AT,
            direction: DESC
        },
        isFork: false,
        after: ".

Definition overview_middle : string := "
    ) {
      pageInfo {
        hasNextPage
        endCursor
      }
      nodes {
        nameWithOwner
        languages(first: 10, orderBy: {field: SIZE, direction: DESC}) {
          edges {
            size
            node {
              name
              color
            }
          }
        }
      }
    }
    repositoriesContributedTo(
        first: 100,
        includeUserRepositories: false,
        orderBy: {
            field: UPDATED_AT,
            direction: DESC
        },
        contributionTypes: [
            COMMIT,
            PULL_REQUEST,
            REPOSITORY,
            PULL_REQUEST_REVIEW
        ]
        after: ".

Definition overview_tail : string := "
    ) {
      pageInfo {
        hasNextPage
        endCursor
      }
      nodes {
        nameWithOwner
        languages(first: 10, orderBy: {field: SIZE, direction: DESC}) {
          edges {
            size
            node {
              name
              color
            }
          }
        }
      }
    }
  }
}
".

(** [Queries.repos_overview(contrib_cursor, owned_cursor)]: the owned
    cursor stands first in the text, under [repositories]. *)
Definition repos_overview (contrib_cursor owned_cursor : option string) : string :=
  overview_head +:+ render_cursor owned_cursor +:+ overview_middle
    +:+ render_cursor contrib_cursor +:+ overview_tail.

(** A cursor without any double quote. *)
Fixpoint quote_free (s : string) : bool :=
  match s with
  | EmptyString => true
  | String c s' => negb (Ascii.eqb c quote_char) && quote_free s'
  end.

Definition cursor_quote_free (cursor : option string) : bool :=
  match cursor with
  | None => true
  | Some c => quote_free c
  end.

End QueryText.

(** ** Vocabulary for the properties of the remaining code *)

Module Probe.
Import Py Queries.

(** The documents posted on a transport, in order. *)
Definition documents_via (via : transport) (tr : list event) : list document :=
  omap (fun e => match e, via with
                 | Post Aiohttp doc, Aiohttp | Post Requests doc, Requests => Some doc
                 | _, _ => None
                 end) tr.

(** The three components of what [total_contributions] yields. *)
Definition outcome_of {A : Type} (r : outcome A * Stats.t * list event) : outcome A :=
  r.1.1.
Definition object_of {A : Type} (r : outcome A * Stats.t * list event) : Stats.t :=
  r.1.2.
Definition trace_of {A : Type} (r : outcome A * Stats.t * list event) : list event :=
  r.2.

(** Two objects with the same configuration and the same contribution
    slot. *)
Definition same_setup (s s' : Stats.t) : Prop :=
  Stats._ignore_forked_repos s' = Stats._ignore_forked_repos s
  /\ Stats._exclude_repos s' = Stats._exclude_repos s
  /\ Stats._exclude_langs s' = Stats._exclude_langs s
  /\ Stats._total_contributions s' = Stats._total_contributions s.

(** An answer rewritten page by page. *)
Definition map_reply (f : Json.overview -> Json.overview)
    (r : reply Json.overview) : reply Json.overview :=
  match r with
  | Raises e => Raises e
  | Json v => Json (f <$> v)
  end.

Definition map_round (f : Json.overview -> Json.overview)
    (a : round Json.overview) : round Json.overview :=
  Round (map_reply f (aio a)) (map_reply f (blocking a)).

(** A page without the nodes of the contributed collection; its page
    information is kept. *)
Definition hide_contributed (raw : Json.overview) : Json.overview :=
  Json.Overview
    ((fun e => Json.Envelope
       ((fun v => Json.Viewer (Json.login v) (Json.name v) (Json.pullRequests v)
                    (Json.openIssues v) (Json.closedIssues v) (Json.repositories v)
                    ((fun c => Json.RepoConn None (Json.pageInfo c))
                       <$> Json.repositoriesContributedTo v))
          <$> Json.viewer_of e))
       <$> Json.data raw).

(** A later table keeps what an earlier one holds: every language is
    still there, with the colour it had and at least as many
    occurrences. *)
Definition keeps (before after : gmap string Stats.lang_stat) : Prop :=
  forall name v, before !! name = Some v ->
  exists v', after !! name = Some v'
             /\ Stats.color v' = Stats.color v
             /\ Stats.occurrences v <= Stats.occurrences v'.

(** The same, together with the size. *)
Definition keeps_size (before after : gmap string Stats.lang_stat) : Prop :=
  forall name v, before !! name = Some v ->
  exists v', after !! name = Some v' /\ Stats.size v <= Stats.size v'.

(** No language edge of the page reports a negative size. *)
Definition sizes_nonneg (raw : Json.overview) : Prop :=
  Forall (fun repo => match repo with
                      | Some r => Forall (fun e => 0 <= Stats.lang_size e)
                                         (Stats.repo_edges r)
                      | None => True
                      end)
         (Stats.candidates false (Stats.viewer_of raw)).

(** No entry of the table holds a proportion. *)
Definition unrated (languages : gmap string Stats.lang_stat) : Prop :=
  forall name v, languages !! name = Some v -> Stats.prop v = None.

(** An attempt that the asynchronous client fails and the blocking
    client answers with a status that is neither 200 nor 202. *)
Definition turned_away {R : Type} (a : attempt R) : bool :=
  match aio_get a, blocking_get a with
  | NoResponse _, Status code _ =>
      negb (bool_decide (code = 200)) && negb (bool_decide (code = 202))
  | _, _ => false
  end.

(** The paths of the GET requests of a trace, in order. *)
Definition paths (tr : list event) : list string :=
  omap (fun e => match e with Get _ path _ => Some path | _ => None end) tr.

(** An endpoint that always turns the call away with a 500. *)
Definition always_500 (i : nat) : attempt string :=
  Attempt (NoResponse ClientError) (Status 500 (Body None)).

(** An endpoint on which the asynchronous client fails and the blocking
    client answers 200 with a body that decodes to [None]. *)
Definition blocking_200_null (i : nat) : attempt string :=
  Attempt (NoResponse ClientError) (Status 200 (Body None)).

End Probe.

(** * Properties of the request layer *)

Section QueryFacts.
Import Py Queries.
Context {R : Type} `{PyDict R}.

(** C2, as the code has it: when the asynchronous client raises, exactly
    one request goes to the blocking client and its outcome is the
    outcome of the call: the decoded body, [dict()] for a body that
    decodes to [None], or the exception of the blocking client itself,
    which reaches the caller.  When the asynchronous client answers, no
    fallback takes place and a body that decodes to [None] gives
    [dict()]. *)
Theorem query_falls_back_once (doc : document) (e : exn) (s : reply R)
    (v : option R) :
  (let r := query doc (Round (Raises e) s) in
   requests_via Aiohttp (snd r) = 1%nat
   /\ requests_via Requests (snd r) = 1%nat
   /\ fst r = match s with
              | Json (Some result) => Returned result
              | Json None => Returned dict0
              | Raises e' => Raised e'
              end)
  /\ query doc (Round (Json v) s)
     = (Returned (default dict0 v), [Post Aiohttp doc]).
Proof.
  split.
  - cbn zeta. unfold query. cbn [aio blocking].
    destruct s as [e'|[result|]]; cbn; auto.
  - unfold query. cbn [aio]. destruct v; reflexivity.
Qed.

End QueryFacts.

(** C2, counterexample: with both clients failing the call does not
    return [dict()]; the exception of the blocking client propagates. *)
Lemma query_both_fail_raises :
  fst (Queries.query (Queries.repos_overview None None) Sample.both_fail)
  = Py.Raised Py.ClientError
  /\ fst (Queries.query (Queries.repos_overview None None) Sample.both_fail)
     <> Py.Returned (Py.dict0 : Json.overview).
Proof. split; [reflexivity | discriminate]. Qed.

Section RestFacts.
Import Py Queries.
Context {R : Type} `{PyDict R}.

Lemma count_app (p : event -> bool) (l1 l2 : list event) :
  count p (l1 ++ l2) = (count p l1 + count p l2)%nat.
Proof. unfold count. rewrite List.filter_app, length_app. reflexivity. Qed.





(** An iteration whose asynchronous answer is 202 costs one request and
    one sleep and goes on to the next. *)
Lemma rest_loop_busy (n i : nat) (path : string)
    (params : list (string * string)) (net : nat -> attempt R) :
  busy (net i) = true ->
  rest_loop (S n) i path params net
  = (fst (rest_loop n (S i) (strip_slash path) params net),
     [Get Aiohttp (strip_slash path) params; Print msg_202; Sleep 2]
       ++ snd (rest_loop n (S i) (strip_slash path) params net)).
Proof.
  unfold busy. intros Hb. cbn [rest_loop]. unfold rest_iteration.
  destruct (aio_get (net i)) as [e|code b]; [discriminate|].
  apply bool_decide_eq_true in Hb. rewrite decide_True by exact Hb.
  destruct (rest_loop n (S i) (strip_slash path) params net). reflexivity.
Qed.


(** [k] busy iterations in front of [n] more. *)
Lemma rest_loop_busy_prefix (k : nat) : forall (n i : nat) (path : string)
    (params : list (string * string)) (net : nat -> attempt R),
  (forall j, (j < k)%nat -> busy (net (i + j)%nat) = true) ->
  exists path' evs,
    rest_loop (k + n) i path params net
    = (fst (rest_loop n (i + k) path' params net),
       evs ++ snd (rest_loop n (i + k) path' params net))
    /\ sleeps evs = k /\ requests evs = k.
Proof.
  induction k as [|k IH]; intros n i path params net Hbusy.
  - exists path, []. rewrite Nat.add_0_r. cbn [Nat.add app].
    split; [apply surjective_pairing | split; reflexivity].
  - destruct (IH n (S i) (strip_slash path) params net) as (path' & evs & Heq & Hs & Hr).
    { intros j Hj. replace (S i + j)%nat with (i + S j)%nat by lia.
      apply Hbusy. lia. }
    exists path', ([Get Aiohttp (strip_slash path) params; Print msg_202; Sleep 2] ++ evs).
    replace (S k + n)%nat with (S (k + n)) by lia.
    rewrite rest_loop_busy by (rewrite <- (Nat.add_0_r i); apply Hbusy; lia).
    rewrite Heq. cbn [fst snd].
    replace (i + S k)%nat with (S i + k)%nat by lia.
    split; [rewrite <- app_assoc; reflexivity|].
    unfold sleeps, requests in *. rewrite !count_app, Hs, Hr. split; reflexivity.
Qed.

End RestFacts.

(** * Properties of the aggregation pass *)

Section LoopFacts.
Import Py Queries Stats.

Lemma query_result_any_document {R : Type} `{PyDict R} (d d' : document)
    (a : round R) :
  fst (query d a) = fst (query d' a).
Proof.
  unfold query. destruct (aio a) as [e|[v|]]; [|reflexivity..].
  destruct (blocking a) as [e'|[v|]]; reflexivity.
Qed.

Lemma query_no_execution {R : Type} `{PyDict R} (d : document) (a : round R) :
  Stats.executions (snd (query d a)) = 0%nat
  /\ requests_via Aiohttp (snd (query d a)) = 1%nat.
Proof.
  unfold query. destruct (aio a) as [e|[v|]]; [|split; reflexivity..].
  destruct (blocking a) as [e'|[v|]]; split; reflexivity.
Qed.

Lemma query_never_pending {R : Type} `{PyDict R} (d : document) (a : round R) :
  fst (query d a) <> Pending.
Proof.
  unfold query. destruct (aio a) as [e|[v|]]; [|discriminate..].
  destruct (blocking a) as [e'|[v|]]; discriminate.
Qed.

(** The three ways a round can end, read off the decoded answer. *)
Lemma overview_round_again (ex : gset string) (self : Stats.t)
    (no nc : option string) (a : round Json.overview) (raw : Json.overview) :
  decoded a = Some raw -> Stats.more_pages raw = true ->
  fst (Stats.overview_round ex self no nc a)
  = Stats.Again (Stats.absorb ex self raw)
      (Stats.next_cursor (Stats.owned_repos (Stats.viewer_of raw)) no)
      (Stats.next_cursor (Stats.contrib_repos (Stats.viewer_of raw)) nc).
Proof.
  unfold decoded, Stats.overview_round. intros Hd Hm.
  rewrite (query_result_any_document _ (repos_overview nc no)) in Hd.
  destruct (query (repos_overview nc no) a) as [[raw'|e|] evs]; cbn [fst] in *;
    [|discriminate..].
  injection Hd as ->. rewrite Hm. reflexivity.
Qed.

Lemma overview_round_break (ex : gset string) (self : Stats.t)
    (no nc : option string) (a : round Json.overview) (raw : Json.overview) :
  decoded a = Some raw -> Stats.more_pages raw = false ->
  fst (Stats.overview_round ex self no nc a) = Stats.Break (Stats.absorb ex self raw).
Proof.
  unfold decoded, Stats.overview_round. intros Hd Hm.
  rewrite (query_result_any_document _ (repos_overview nc no)) in Hd.
  destruct (query (repos_overview nc no) a) as [[raw'|e|] evs]; cbn [fst] in *;
    [|discriminate..].
  injection Hd as ->. rewrite Hm. reflexivity.
Qed.

Lemma overview_round_fails (ex : gset string) (self : Stats.t)
    (no nc : option string) (a : round Json.overview) :
  decoded a = None ->
  exists e, fst (Stats.overview_round ex self no nc a) = Stats.Fails e self.
Proof.
  unfold decoded, Stats.overview_round. intros Hd.
  rewrite (query_result_any_document _ (repos_overview nc no)) in Hd.
  pose proof (query_never_pending (repos_overview nc no) a) as Hp.
  destruct (query (repos_overview nc no) a) as [[raw'|e|] evs]; cbn [fst] in *;
    [discriminate | eauto | congruence].
Qed.

Lemma overview_round_trace (ex : gset string) (self : Stats.t)
    (no nc : option string) (a : round Json.overview) :
  Stats.executions (snd (Stats.overview_round ex self no nc a)) = 0%nat
  /\ requests_via Aiohttp (snd (Stats.overview_round ex self no nc a)) = 1%nat.
Proof.
  unfold Stats.overview_round.
  pose proof (query_no_execution (repos_overview nc no) a) as Hq.
  destruct (query (repos_overview nc no) a) as [[raw'|e|] evs]; cbn [snd] in *;
    [|exact Hq..].
  destruct (Stats.more_pages raw'); exact Hq.
Qed.

(** The object after the loop is the fold of [absorb] over the absorbed
    pages, whatever the cursors and however the loop ends. *)
Lemma pages_self_after (ex : gset string) (net : list (round Json.overview)) :
  forall (self : Stats.t) (no nc : option string),
  Stats.self_after (Stats.pages ex self no nc net)
  = foldl (Stats.absorb ex) self (absorbed net).
Proof.
  induction net as [|a net IH]; intros self no nc; [reflexivity|].
  cbn [Stats.pages absorbed].
  destruct (decoded a) as [raw|] eqn:Hd.
  - destruct (Stats.more_pages raw) eqn:Hm.
    + pose proof (overview_round_again ex self no nc a raw Hd Hm) as Hr.
      destruct (Stats.overview_round ex self no nc a) as [e evs]. cbn [fst] in Hr.
      subst e. cbn [Stats.self_after foldl]. apply IH.
    + pose proof (overview_round_break ex self no nc a raw Hd Hm) as Hr.
      destruct (Stats.overview_round ex self no nc a) as [e evs]. cbn [fst] in Hr.
      subst e. reflexivity.
  - destruct (overview_round_fails ex self no nc a Hd) as [e' Hr].
    destruct (Stats.overview_round ex self no nc a) as [e evs]. cbn [fst] in Hr.
    subst e. reflexivity.
Qed.

(** A supply whose first [length before] answers go on and whose next
    answer is the last: the loop returns after exactly these rounds. *)
Lemma pages_returns (ex : gset string) (before : list (round Json.overview)) :
  forall (self : Stats.t) (no nc : option string)
         (last : round Json.overview) (rest : list (round Json.overview)),
  Forall (fun a => continues a = true) before ->
  stops last = true ->
  let r := Stats.pages ex self no nc (before ++ last :: rest) in
  Stats.result r = Returned ()
  /\ Stats.net_after r = rest
  /\ requests_via Aiohttp (Stats.trace r) = S (length before)
  /\ Stats.executions (Stats.trace r) = 0%nat.
Proof.
  induction before as [|a before IH]; intros self no nc last rest Hc Hs; cbn zeta.
  - cbn [app Stats.pages]. unfold stops in Hs.
    destruct (decoded last) as [raw|] eqn:Hd; [|discriminate].
    apply negb_true_iff in Hs.
    pose proof (overview_round_break ex self no nc last raw Hd Hs) as Hr.
    pose proof (overview_round_trace ex self no nc last) as [He Ha].
    destruct (Stats.overview_round ex self no nc last) as [e evs].
    cbn [fst snd] in *. subst e. cbn. auto.
  - inversion Hc as [|? ? Ha Hc']; subst. cbn [app Stats.pages]. unfold continues in Ha.
    destruct (decoded a) as [raw|] eqn:Hd; [|discriminate].
    pose proof (overview_round_again ex self no nc a raw Hd Ha) as Hr.
    pose proof (overview_round_trace ex self no nc a) as [He Hq].
    destruct (Stats.overview_round ex self no nc a) as [e evs].
    cbn [fst snd] in *. subst e.
    specialize (IH (Stats.absorb ex self raw)
      (Stats.next_cursor (Stats.owned_repos (Stats.viewer_of raw)) no)
      (Stats.next_cursor (Stats.contrib_repos (Stats.viewer_of raw)) nc)
      last rest Hc' Hs). cbn zeta in IH.
    destruct IH as (IH1 & IH2 & IH3 & IH4).
    cbn [Stats.result Stats.net_after Stats.trace length].
    unfold requests_via, Stats.executions in *.
    rewrite !count_app, IH3, IH4, He, Hq. auto.
Qed.

(** While every answer reports a next page the loop stays at its
    [await]. *)
Lemma pages_pending (ex : gset string) (net : list (round Json.overview)) :
  forall (self : Stats.t) (no nc : option string),
  Forall (fun a => continues a = true) net ->
  Stats.result (Stats.pages ex self no nc net) = Pending.
Proof.
  induction net as [|a net IH]; intros self no nc Hc; [reflexivity|].
  inversion Hc as [|? ? Ha Hc']; subst. cbn [Stats.pages]. unfold continues in Ha.
  destruct (decoded a) as [raw|] eqn:Hd; [|discriminate].
  pose proof (overview_round_again ex self no nc a raw Hd Ha) as Hr.
  destruct (Stats.overview_round ex self no nc a) as [e evs].
  cbn [fst] in Hr. subst e. cbn [Stats.result]. apply IH, Hc'.
Qed.

Lemma absorbed_returns (before : list (round Json.overview))
    (last : round Json.overview) (rest : list (round Json.overview)) :
  Forall (fun a => continues a = true) before ->
  stops last = true ->
  absorbed (before ++ last :: rest) = omap decoded (before ++ [last]).
Proof.
  intros Hc Hs. induction Hc as [|a before Ha Hc IH]; cbn.
  - unfold stops in Hs. destruct (decoded last) as [raw|]; [|discriminate].
    apply negb_true_iff in Hs. rewrite Hs. reflexivity.
  - unfold continues in Ha. destruct (decoded a) as [raw|]; [|discriminate].
    rewrite Ha. cbn in IH. rewrite IH. reflexivity.
Qed.

End LoopFacts.

Section SlotFacts.
Import Py Queries Stats.

Lemma same_scalars_refl (s : t) : same_scalars s s.
Proof. repeat split. Qed.

Lemma same_scalars_trans (s1 s2 s3 : t) :
  same_scalars s1 s2 -> same_scalars s2 s3 -> same_scalars s1 s3.
Proof.
  unfold same_scalars. intros (?&?&?&?&?&?&?) (?&?&?&?&?&?&?).
  repeat split; congruence.
Qed.

Lemma add_repo_scalars (ex : gset string) (s : t) (repo : option Json.repo_node) :
  same_scalars s (add_repo ex s repo).
Proof.
  unfold add_repo. destruct repo as [repo|]; [|apply same_scalars_refl].
  case_decide; [apply same_scalars_refl | repeat split].
Qed.

Lemma foldl_add_repo_scalars (ex : gset string) (rs : list (option Json.repo_node)) :
  forall s : t, same_scalars s (foldl (add_repo ex) s rs).
Proof.
  induction rs as [|r rs IH]; intros s; cbn [foldl]; [apply same_scalars_refl|].
  eapply same_scalars_trans; [apply add_repo_scalars | apply IH].
Qed.

(** Lines 308-317: every absorbed page assigns the name and both
    counters. *)
Lemma absorb_scalars (ex : gset string) (s : t) (raw : Json.overview) :
  let s' := absorb ex s raw in
  _name s' = Some (display_name (viewer_of raw))
  /\ _issues s' = Some (page_issues raw)
  /\ _prs s' = Some (page_prs raw)
  /\ _exclude_repos s' = _exclude_repos s
  /\ _exclude_langs s' = _exclude_langs s
  /\ _ignore_forked_repos s' = _ignore_forked_repos s
  /\ _total_contributions s' = _total_contributions s.
Proof.
  cbn zeta. unfold absorb.
  match goal with |- context [foldl (add_repo ex) ?s0 ?rs] =>
    destruct (foldl_add_repo_scalars ex rs s0) as (Hn & Hi & Hp & Ht & Her & Hel & Hig)
  end.
  rewrite Hn, Hi, Hp, Ht, Her, Hel, Hig. cbn. repeat split.
Qed.

Lemma foldl_absorb_config (ex : gset string) (raws : list Json.overview) :
  forall s : t,
  _exclude_repos (foldl (absorb ex) s raws) = _exclude_repos s
  /\ _exclude_langs (foldl (absorb ex) s raws) = _exclude_langs s
  /\ _ignore_forked_repos (foldl (absorb ex) s raws) = _ignore_forked_repos s
  /\ _total_contributions (foldl (absorb ex) s raws) = _total_contributions s.
Proof.
  induction raws as [|raw raws IH]; intros s; cbn [foldl]; [repeat split|].
  destruct (IH (absorb ex s raw)) as (-> & -> & -> & ->).
  destruct (absorb_scalars ex s raw) as (_ & _ & _ & -> & -> & -> & ->).
  repeat split.
Qed.

(** After the fold the name and the counters are those of the page
    absorbed last. *)
Lemma foldl_absorb_last (ex : gset string) (raws : list Json.overview) :
  forall (s : t) (raw : Json.overview),
  last raws = Some raw ->
  _name (foldl (absorb ex) s raws) = Some (display_name (viewer_of raw))
  /\ _issues (foldl (absorb ex) s raws) = Some (page_issues raw)
  /\ _prs (foldl (absorb ex) s raws) = Some (page_prs raw).
Proof.
  induction raws as [|raw0 raws IH]; intros s raw Hl; [discriminate|].
  cbn [foldl]. destruct raws as [|raw1 raws].
  - injection Hl as <-. cbn [foldl].
    destruct (absorb_scalars ex s raw0) as (? & ? & ? & _). auto.
  - apply IH. exact Hl.
Qed.

(** Lines 360-362 touch the language table only. *)
Lemma proportions_scalars (s : t) :
  same_scalars s (snd (proportions s)) /\ _repos (snd (proportions s)) = _repos s.
Proof.
  unfold proportions. repeat case_decide; cbn; repeat split.
Qed.

Lemma get_stats_self_after (self : t) (net : list (round Json.overview)) :
  self_after (get_stats self net) = at_loop_exit self net
  \/ self_after (get_stats self net) = snd (proportions (at_loop_exit self net)).
Proof.
  unfold get_stats, at_loop_exit.
  pose proof (pages_self_after (exclude_langs_lower (enter_get_stats self)) net
                (enter_get_stats self) None None) as Hs.
  change (exclude_langs_lower (enter_get_stats self))
    with (exclude_langs_lower self) in *.
  destruct (result (pages (exclude_langs_lower self) (enter_get_stats self) None None net));
    cbn [self_after]; [|left; exact Hs..].
  right. rewrite <- Hs.
  destruct (proportions (self_after (pages (exclude_langs_lower self)
    (enter_get_stats self) None None net))); reflexivity.
Qed.

Lemma get_stats_scalars (self : t) (net : list (round Json.overview)) :
  same_scalars (at_loop_exit self net) (self_after (get_stats self net))
  /\ _repos (self_after (get_stats self net)) = _repos (at_loop_exit self net).
Proof.
  destruct (get_stats_self_after self net) as [-> | ->].
  - split; [apply same_scalars_refl | reflexivity].
  - apply proportions_scalars.
Qed.

End SlotFacts.

(** * The claims about the aggregation pass *)

Section PassFacts.
Import Py Queries Stats.

(** C1, as the code has it: lines 314-317 are inside the loop, so the
    counters are assigned again on every page; when at least one page
    was absorbed, [_issues] and [_prs] are those of the page absorbed
    last, not of the first. *)
Theorem counters_follow_last_page (self : t) (net : list (round Json.overview))
    (raw : Json.overview) :
  last (absorbed net) = Some raw ->
  _issues (self_after (get_stats self net)) = Some (page_issues raw)
  /\ _prs (self_after (get_stats self net)) = Some (page_prs raw).
Proof.
  intros Hl.
  destruct (get_stats_scalars self net) as ((_ & Hi & Hp & _) & _).
  rewrite Hi, Hp. unfold at_loop_exit.
  destruct (foldl_absorb_last (exclude_langs_lower self) (absorbed net)
              (enter_get_stats self) raw Hl) as (_ & ? & ?).
  auto.
Qed.

End PassFacts.

(** C1, witness: the two sample pages. *)
Lemma counters_follow_last_page_witness :
  Stats._issues (Stats.self_after (Stats.get_stats Sample.picky Sample.two_pages))
  = Some (Stats.page_issues Sample.last_page)
  /\ Stats._prs (Stats.self_after (Stats.get_stats Sample.picky Sample.two_pages))
     = Some (Stats.page_prs Sample.last_page).
Proof.
  apply (counters_follow_last_page Sample.picky Sample.two_pages Sample.last_page).
  reflexivity.
Defined.

(** C1, counterexample: the first page reports 3 issues and 3 pull
    requests, the last one 30 and 30; the pass stores 30 and 30. *)
Lemma counters_not_from_first_page :
  Stats.page_issues Sample.first_page = 3
  /\ Stats.page_prs Sample.first_page = 3
  /\ Stats._issues (Stats.self_after (Stats.get_stats Sample.picky Sample.two_pages))
     = Some 30
  /\ Stats._prs (Stats.self_after (Stats.get_stats Sample.picky Sample.two_pages))
     = Some 30.
Proof. repeat split; vm_compute; reflexivity. Qed.

Section RepoSetFacts.
Import Py Queries Stats.

Lemma add_repo_repos (ex : gset string) (s : t) (repo : option Json.repo_node) :
  the_repos (add_repo ex s repo)
  = the_repos s ∪ (ids [repo] ∖ _exclude_repos s).
Proof.
  unfold add_repo, ids. destruct repo as [repo|]; cbn.
  - case_decide as Hin; cbn; set_solver.
  - set_solver.
Qed.

Lemma ids_cons (r : option Json.repo_node) (rs : list (option Json.repo_node)) :
  ids (r :: rs) = ids [r] ∪ ids rs.
Proof. unfold ids. destruct r; cbn; set_solver. Qed.

Lemma ids_app (rs1 rs2 : list (option Json.repo_node)) :
  ids (rs1 ++ rs2) = ids rs1 ∪ ids rs2.
Proof.
  induction rs1 as [|r rs1 IH]; cbn [app].
  - unfold ids at 2. cbn. set_solver.
  - rewrite (ids_cons r rs1), (ids_cons r (rs1 ++ rs2)), IH. set_solver.
Qed.

Lemma foldl_add_repo_repos (ex : gset string) (rs : list (option Json.repo_node)) :
  forall s : t,
  the_repos (foldl (add_repo ex) s rs) = the_repos s ∪ (ids rs ∖ _exclude_repos s).
Proof.
  induction rs as [|r rs IH]; intros s; cbn [foldl].
  - unfold ids. cbn. set_solver.
  - rewrite IH, add_repo_repos, (ids_cons r rs).
    destruct (add_repo_scalars ex s r) as (_ & _ & _ & _ & -> & _).
    set_solver.
Qed.

Lemma absorb_repos (ex : gset string) (s : t) (raw : Json.overview) :
  the_repos (absorb ex s raw)
  = the_repos s ∪ (page_ids (_ignore_forked_repos s) raw ∖ _exclude_repos s).
Proof. unfold absorb. rewrite foldl_add_repo_repos. reflexivity. Qed.

Lemma foldl_absorb_repos (ex : gset string) (raws : list Json.overview) :
  forall s : t,
  the_repos (foldl (absorb ex) s raws)
  = the_repos s ∪ (⋃ (page_ids (_ignore_forked_repos s) <$> raws) ∖ _exclude_repos s).
Proof.
  induction raws as [|raw raws IH]; intros s; cbn [foldl].
  - cbn. set_solver.
  - rewrite IH, absorb_repos.
    destruct (absorb_scalars ex s raw) as (_ & _ & _ & -> & _ & -> & _).
    cbn. set_solver.
Qed.

(** The repository set after a pass: the identifiers of the absorbed
    pages that are not excluded. *)
Lemma get_stats_repos (self : t) (net : list (round Json.overview)) :
  the_repos (self_after (get_stats self net))
  = candidate_ids self net ∖ _exclude_repos self.
Proof.
  destruct (get_stats_scalars self net) as (_ & Hr).
  unfold the_repos at 1. rewrite Hr. fold (the_repos (at_loop_exit self net)).
  unfold at_loop_exit. rewrite foldl_absorb_repos. unfold candidate_ids. cbn.
  set_solver.
Qed.

End RepoSetFacts.

Section LanguageFacts.
Import Py Queries Stats.

Lemma add_language_clean (ex : gset string) (langs : gmap string lang_stat)
    (lang : Json.lang_edge) :
  clean ex langs -> clean ex (add_language ex langs lang).
Proof.
  unfold clean, add_language. cbn zeta. intros Hc name Hn.
  case_decide as Hex; [apply Hc, Hn|].
  assert (lang_name lang <> name) by (intros Heq; rewrite Heq in Hex; contradiction).
  destruct (langs !! lang_name lang); rewrite lookup_insert_ne by assumption;
    apply Hc, Hn.
Qed.

Lemma foldl_add_language_clean (ex : gset string) (es : list Json.lang_edge) :
  forall langs : gmap string lang_stat,
  clean ex langs -> clean ex (foldl (add_language ex) langs es).
Proof.
  induction es as [|e es IH]; intros langs Hc; cbn [foldl]; [exact Hc|].
  apply IH, add_language_clean, Hc.
Qed.

Lemma add_repo_clean (ex : gset string) (s : t) (repo : option Json.repo_node) :
  clean ex (the_languages s) -> clean ex (the_languages (add_repo ex s repo)).
Proof.
  intros Hc. unfold add_repo. destruct repo as [repo|]; [|exact Hc].
  case_decide; [exact Hc|]. cbn. apply foldl_add_language_clean, Hc.
Qed.

Lemma foldl_add_repo_clean (ex : gset string) (rs : list (option Json.repo_node)) :
  forall s : t,
  clean ex (the_languages s) -> clean ex (the_languages (foldl (add_repo ex) s rs)).
Proof.
  induction rs as [|r rs IH]; intros s Hc; cbn [foldl]; [exact Hc|].
  apply IH, add_repo_clean, Hc.
Qed.

Lemma absorb_clean (ex : gset string) (s : t) (raw : Json.overview) :
  clean ex (the_languages s) -> clean ex (the_languages (absorb ex s raw)).
Proof. intros Hc. unfold absorb. apply foldl_add_repo_clean. exact Hc. Qed.

Lemma foldl_absorb_clean (ex : gset string) (raws : list Json.overview) :
  forall s : t,
  clean ex (the_languages s) -> clean ex (the_languages (foldl (absorb ex) s raws)).
Proof.
  induction raws as [|raw raws IH]; intros s Hc; cbn [foldl]; [exact Hc|].
  apply IH, absorb_clean, Hc.
Qed.

Lemma proportions_clean (ex : gset string) (s : t) :
  clean ex (the_languages s) -> clean ex (the_languages (snd (proportions s))).
Proof.
  intros Hc. unfold proportions. repeat case_decide; cbn [snd]; [exact Hc..|].
  intros name Hn. cbn. rewrite lookup_fmap, (Hc name Hn). reflexivity.
Qed.

(** No pass leaves in the table a name whose lower-case form is the
    lower-case form of an excluded language. *)
Lemma get_stats_clean (self : t) (net : list (round Json.overview)) :
  clean (exclude_langs_lower self) (the_languages (self_after (get_stats self net))).
Proof.
  assert (Hc : clean (exclude_langs_lower self) (the_languages (at_loop_exit self net))).
  { unfold at_loop_exit. apply foldl_absorb_clean. intros name _. reflexivity. }
  destruct (get_stats_self_after self net) as [-> | ->];
    [exact Hc | apply proportions_clean, Hc].
Qed.

End LanguageFacts.

Section ExclusionFacts.
Import Py Queries Stats.

(** A repository that is already in the set, or excluded, is skipped as
    a whole: neither the set nor the language table changes. *)
Lemma add_repo_skips (ex : gset string) (s : t) (r : Json.repo_node) :
  Json.nameWithOwner r ∈ the_repos s \/ Json.nameWithOwner r ∈ _exclude_repos s ->
  add_repo ex s (Some r) = s.
Proof. intros Hin. unfold add_repo. rewrite decide_True by exact Hin. reflexivity. Qed.










End ExclusionFacts.

(** * The code against what the answers report *)

Section ReportedFacts.
Import Py Queries Stats Reported.

Lemma lang_name_key (e : Json.lang_edge) : lang_name e = key_of e.
Proof. destruct e as [sz [[[n|] c]|]]; reflexivity. Qed.

Lemma lang_size_bytes (e : Json.lang_edge) : lang_size e = bytes_of e.
Proof. destruct e as [[z|] nd]; reflexivity. Qed.

Lemma lang_color_colour (e : Json.lang_edge) : lang_color e = colour_of e.
Proof. destruct e as [sz [nd|]]; reflexivity. Qed.

Lemma repo_edges_of (r : Json.repo_node) : repo_edges r = edges_of r.
Proof. destruct r as [n [[[es|]]|]]; reflexivity. Qed.

Lemma candidates_listed (ig : bool) (raw : Json.overview) :
  omap id (candidates ig (viewer_of raw)) = listed ig raw.
Proof.
  unfold candidates, listed, viewer_of, owned_repos, contrib_repos, nodes_of.
  destruct raw as [[[[v|]]|]]; cbn; [|destruct ig; reflexivity..].
  destruct (Json.repositories v) as [[[ns|] pi]|],
    (Json.repositoriesContributedTo v) as [[[ns'|] pi']|], ig; cbn;
    rewrite ?omap_app, ?app_nil_r; reflexivity.
Qed.

Lemma included_lower (self : t) (e : Json.lang_edge) :
  included self e <-> lower (key_of e) ∉ exclude_langs_lower self.
Proof.
  unfold included, exclude_langs_lower. rewrite elem_of_map. split.
  - intros Hall (x & Heq & Hin). exact (Hall x Hin Heq).
  - intros Hn x Hin Heq. apply Hn. eauto.
Qed.

Lemma entry_eq (a a' b b' : Z) (c c' : option string) :
  a = a' -> b = b' -> c = c' -> Some (a, b, c) = Some (a', b', c').
Proof. congruence. Qed.

(** The entry that a fold of [add_language] leaves under a key that is
    not excluded. *)
Lemma foldl_add_language_lookup (ex : gset string) (k : string)
    (es : list Json.lang_edge) :
  lower k ∉ ex ->
  forall langs : gmap string lang_stat,
  entry <$> (foldl (add_language ex) langs es !! k)
  = match langs !! k with
    | Some v =>
        Some (size v + foldr Z.add 0 (bytes_of <$> under k es),
              occurrences v + Z.of_nat (length (under k es)), color v)
    | None => tally (under k es)
    end.
Proof.
  intros Hk. induction es as [|e es IH]; intros langs.
  - cbn. destruct (langs !! k) as [v|]; [|reflexivity].
    cbn. unfold entry. apply entry_eq; [lia | lia | reflexivity].
  - cbn [foldl]. rewrite IH. unfold under in *.
    destruct (decide (key_of e = k)) as [He|He].
    + rewrite filter_cons_True by exact He.
      unfold add_language. cbn zeta. rewrite lang_name_key, He.
      rewrite decide_False by exact Hk.
      destruct (langs !! k) as [v|]; rewrite lookup_insert_eq;
        cbn [size occurrences color fmap list_fmap foldr length tally];
        rewrite ?lang_size_bytes, ?lang_color_colour;
        apply entry_eq; try lia; reflexivity.
    + rewrite filter_cons_False by exact He.
      unfold add_language. cbn zeta. rewrite lang_name_key.
      case_decide; [reflexivity|].
      destruct (langs !! key_of e); rewrite lookup_insert_ne by exact He; reflexivity.
Qed.

Lemma under_included (self : t) (k : string) (es : list Json.lang_edge) :
  lower k ∉ exclude_langs_lower self ->
  under k (filter (included self) es) = under k es.
Proof.
  intros Hk. unfold under. induction es as [|e es IH]; [reflexivity|].
  destruct (decide (key_of e = k)) as [He|He].
  - rewrite (filter_cons_True (included self))
      by (apply included_lower; rewrite He; exact Hk).
    rewrite !(filter_cons_True (fun e => key_of e = k)) by exact He.
    rewrite IH. reflexivity.
  - rewrite (filter_cons_False (fun e => key_of e = k) e es) by exact He.
    destruct (decide (included self e)).
    + rewrite (filter_cons_True (included self)) by assumption.
      rewrite filter_cons_False by exact He. exact IH.
    + rewrite (filter_cons_False (included self)) by assumption. exact IH.
Qed.

Lemma under_excluded (self : t) (k : string) (es : list Json.lang_edge) :
  lower k ∈ exclude_langs_lower self ->
  under k (filter (included self) es) = [].
Proof.
  intros Hk. unfold under. induction es as [|e es IH]; [reflexivity|].
  destruct (decide (included self e)) as [Hi|Hi].
  - rewrite (filter_cons_True (included self)) by assumption.
    rewrite filter_cons_False; [exact IH|].
    intros He. apply included_lower in Hi. rewrite He in Hi. contradiction.
  - rewrite (filter_cons_False (included self)) by assumption. exact IH.
Qed.

Lemma first_listings_app (l1 : list Json.repo_node) :
  forall (seen : gset (option string)) (l2 : list Json.repo_node),
  first_listings seen (l1 ++ l2)
  = first_listings seen l1
    ++ first_listings
         (list_to_set (Json.nameWithOwner <$> first_listings seen l1) ∪ seen) l2.
Proof.
  induction l1 as [|r l1 IH]; intros seen l2; cbn [app first_listings].
  - cbn. rewrite (left_id_L ∅ (∪)). reflexivity.
  - case_decide as Hin; [apply IH|].
    rewrite IH. cbn [app fmap list_fmap list_to_set]. do 2 f_equal.
    f_equal. set_solver.
Qed.


Lemma add_repo_new (ex : gset string) (s : t) (r : Json.repo_node) :
  ~ (Json.nameWithOwner r ∈ the_repos s \/ Json.nameWithOwner r ∈ _exclude_repos s) ->
  add_repo ex s (Some r)
  = set_languages
      (Some (foldl (add_language ex) (the_languages s) (repo_edges r)))
      (set_repos (Some ({[Json.nameWithOwner r]} ∪ the_repos s)) s).
Proof. intros Hn. unfold add_repo. rewrite decide_False by exact Hn. reflexivity. Qed.

Lemma omap_id_some (r : Json.repo_node) (rs : list (option Json.repo_node)) :
  omap id (Some r :: rs) = r :: omap id rs.
Proof. reflexivity. Qed.

Lemma omap_id_none (rs : list (option Json.repo_node)) :
  omap id (None :: rs) = omap id rs.
Proof. reflexivity. Qed.

(** The loop over the repositories of a page adds the first listings
    that are new, and folds their edges into the table. *)
Lemma foldl_add_repo_counted (ex : gset string) (rs : list (option Json.repo_node)) :
  forall s : t,
  let fl := first_listings (the_repos s ∪ _exclude_repos s) (omap id rs) in
  the_repos (foldl (add_repo ex) s rs)
  = list_to_set (Json.nameWithOwner <$> fl) ∪ the_repos s
  /\ the_languages (foldl (add_repo ex) s rs)
     = foldl (add_language ex) (the_languages s) (concat (edges_of <$> fl)).
Proof.
  induction rs as [|[r|] rs IH]; intros s; cbn zeta.
  - cbn. split; [set_solver | reflexivity].
  - cbn [foldl]. rewrite omap_id_some. cbn [first_listings]. case_decide as Hin.
    + apply elem_of_union in Hin. rewrite add_repo_skips by exact Hin. apply IH.
    + rewrite elem_of_union in Hin. rewrite add_repo_new by exact Hin.
      match goal with |- context [foldl (add_repo ex) ?s1 rs] =>
        specialize (IH s1); cbn zeta in IH;
        change (the_repos s1) with ({[Json.nameWithOwner r]} ∪ the_repos s) in IH;
        change (_exclude_repos s1) with (_exclude_repos s) in IH;
        change (the_languages s1)
          with (foldl (add_language ex) (the_languages s) (repo_edges r)) in IH
      end.
      replace ({[Json.nameWithOwner r]} ∪ the_repos s ∪ _exclude_repos s)
        with ({[Json.nameWithOwner r]} ∪ (the_repos s ∪ _exclude_repos s)) in IH
        by set_solver.
      destruct IH as [IHr IHl]. rewrite IHr, IHl. split.
      * cbn [fmap list_fmap list_to_set]. set_solver.
      * cbn [fmap list_fmap concat]. rewrite foldl_app, repo_edges_of. reflexivity.
  - cbn [foldl]. rewrite omap_id_none. apply IH.
Qed.

Lemma absorb_counted (ex : gset string) (s : t) (raw : Json.overview) :
  let fl := first_listings (the_repos s ∪ _exclude_repos s)
                           (listed (_ignore_forked_repos s) raw) in
  the_repos (absorb ex s raw)
  = list_to_set (Json.nameWithOwner <$> fl) ∪ the_repos s
  /\ the_languages (absorb ex s raw)
     = foldl (add_language ex) (the_languages s) (concat (edges_of <$> fl)).
Proof.
  cbn zeta. unfold absorb. cbn zeta.
  match goal with |- context [foldl (add_repo ex) ?s0 ?rs] =>
    pose proof (foldl_add_repo_counted ex rs s0) as Hc; cbn zeta in Hc;
    change (the_repos s0) with (the_repos s) in Hc;
    change (_exclude_repos s0) with (_exclude_repos s) in Hc;
    change (the_languages s0) with (the_languages s) in Hc
  end.
  cbn [_ignore_forked_repos set_prs set_issues set_name] in Hc.
  rewrite candidates_listed in Hc. exact Hc.
Qed.

Lemma foldl_absorb_counted (ex : gset string) (raws : list Json.overview) :
  forall s : t,
  let fl := first_listings (the_repos s ∪ _exclude_repos s)
              (concat (listed (_ignore_forked_repos s) <$> raws)) in
  the_repos (foldl (absorb ex) s raws)
  = list_to_set (Json.nameWithOwner <$> fl) ∪ the_repos s
  /\ the_languages (foldl (absorb ex) s raws)
     = foldl (add_language ex) (the_languages s) (concat (edges_of <$> fl)).
Proof.
  induction raws as [|raw raws IH]; intros s; cbn zeta.
  - cbn. split; [set_solver | reflexivity].
  - cbn [foldl fmap list_fmap concat].
    destruct (absorb_counted ex s raw) as [Hr Hl]. cbn zeta in Hr, Hl.
    destruct (absorb_scalars ex s raw) as (_ & _ & _ & Hex & _ & Hig & _).
    destruct (IH (absorb ex s raw)) as [IHr IHl]. cbn zeta in IHr, IHl.
    rewrite Hex, Hig, Hr in IHr, IHl. rewrite Hl in IHl.
    rewrite first_listings_app.
    rewrite <- (assoc_L (∪)) in IHr, IHl.
    rewrite IHr, IHl. split.
    + rewrite fmap_app, list_to_set_app_L. set_solver.
    + rewrite fmap_app, concat_app, foldl_app. reflexivity.
Qed.

(** The object at the end of the loop: the set holds the identifiers of
    the repositories that count, the table the fold of their edges. *)
Lemma at_loop_exit_counted (self : t) (net : list (round Json.overview)) :
  the_repos (at_loop_exit self net)
  = list_to_set (Json.nameWithOwner <$> counted self net)
  /\ the_languages (at_loop_exit self net)
     = foldl (add_language (exclude_langs_lower self)) ∅
             (concat (edges_of <$> counted self net)).
Proof.
  unfold at_loop_exit, counted, reported.
  destruct (foldl_absorb_counted (exclude_langs_lower self) (absorbed net)
              (enter_get_stats self)) as [Hr Hl].
  cbn zeta in Hr, Hl.
  change (the_repos (enter_get_stats self)) with (∅ : gset (option string)) in Hr, Hl.
  change (_exclude_repos (enter_get_stats self)) with (_exclude_repos self) in Hr, Hl.
  change (_ignore_forked_repos (enter_get_stats self))
    with (_ignore_forked_repos self) in Hr, Hl.
  change (the_languages (enter_get_stats self)) with (∅ : gmap string lang_stat) in Hl.
  rewrite (left_id_L ∅ (∪)) in Hr, Hl. rewrite (right_id_L ∅ (∪)) in Hr.
  split; assumption.
Qed.

(** Lines 360-362 change neither the size, nor the occurrences, nor the
    colour of an entry. *)
Lemma get_stats_entries (self : t) (net : list (round Json.overview)) (k : string) :
  entry <$> (the_languages (self_after (get_stats self net)) !! k)
  = entry <$> (the_languages (at_loop_exit self net) !! k).
Proof.
  destruct (get_stats_self_after self net) as [-> | ->]; [reflexivity|].
  unfold proportions. repeat case_decide; cbn [snd]; [reflexivity..|].
  cbn. rewrite lookup_fmap.
  destruct (the_languages (at_loop_exit self net) !! k); reflexivity.
Qed.

(** The table after a pass, key by key. *)
Lemma get_stats_tally (self : t) (net : list (round Json.overview)) (k : string) :
  entry <$> (the_languages (self_after (get_stats self net)) !! k)
  = tally (under k (merged_edges self net)).
Proof.
  unfold merged_edges.
  destruct (decide (lower k ∈ exclude_langs_lower self)) as [Hk|Hk].
  - rewrite (get_stats_clean self net k Hk), under_excluded by exact Hk. reflexivity.
  - rewrite get_stats_entries, under_included by exact Hk.
    destruct (at_loop_exit_counted self net) as [_ ->].
    rewrite foldl_add_language_lookup by exact Hk.
    rewrite lookup_empty. reflexivity.
Qed.

Lemma elem_of_concat {A : Type} (x : A) (ls : list (list A)) :
  x ∈ concat ls <-> exists l, l ∈ ls /\ x ∈ l.
Proof.
  induction ls as [|l ls IH]; cbn [concat].
  - split; [intros Hx; inversion Hx | intros (l & Hl & _); inversion Hl].
  - rewrite elem_of_app, IH. split.
    + intros [Hx | (l' & Hl' & Hx)].
      * exists l. split; [left | exact Hx].
      * exists l'. split; [right; exact Hl' | exact Hx].
    + intros (l' & Hl' & Hx). apply elem_of_cons in Hl' as [->|Hl']; [left | right]; eauto.
Qed.

Lemma page_ids_listed (ig : bool) (raw : Json.overview) :
  page_ids ig raw = list_to_set (Json.nameWithOwner <$> listed ig raw).
Proof. unfold page_ids, ids. rewrite candidates_listed. reflexivity. Qed.

(** The identifiers of the candidates of a pass are those of the
    repositories that its pages list. *)
Lemma candidate_ids_listed (self : t) (net : list (round Json.overview))
    (id : option string) :
  id ∈ candidate_ids self net
  <-> exists raw r, raw ∈ absorbed net
                    /\ r ∈ listed (_ignore_forked_repos self) raw
                    /\ Json.nameWithOwner r = id.
Proof.
  unfold candidate_ids. rewrite elem_of_union_list. split.
  - intros (X & HX & Hid). apply list_elem_of_fmap in HX as (raw & -> & Hraw).
    rewrite page_ids_listed in Hid. apply elem_of_list_to_set in Hid.
    apply list_elem_of_fmap in Hid as (r & -> & Hr). eauto.
  - intros (raw & r & Hraw & Hr & <-).
    exists (page_ids (_ignore_forked_repos self) raw). split.
    + apply list_elem_of_fmap. eauto.
    + rewrite page_ids_listed. apply elem_of_list_to_set, list_elem_of_fmap. eauto.
Qed.

End ReportedFacts.

(** * The claims about the repository set and the language table *)

Section AggregateFacts.
Import Py Queries Stats Reported.


(** C8: a language is dropped when its lower-case form is the
    lower-case form of an excluded language, so that excluding [python]
    drops [Python]; a repository of an absorbed page is left out of the
    set exactly when its identifier is a member of the exclusion set. *)
Theorem exclusion_matching (self : t) (net : list (round Json.overview)) :
  let st := self_after (get_stats self net) in
  (forall name excluded : string,
     excluded ∈ _exclude_langs self -> lower name = lower excluded ->
     the_languages st !! name = None)
  /\ (_exclude_langs self = {["python"]} -> the_languages st !! "Python" = None)
  /\ (forall id, id ∈ candidate_ids self net ->
                 (id ∉ the_repos st <-> id ∈ _exclude_repos self)).
Proof.
  cbn zeta.
  assert (H1 : forall name excluded : string,
    excluded ∈ _exclude_langs self -> lower name = lower excluded ->
    the_languages (self_after (get_stats self net)) !! name = None).
  { intros name excluded Hin Heq. apply (get_stats_clean self net).
    unfold exclude_langs_lower. apply elem_of_map. exists excluded. auto. }
  split; [exact H1|]. split.
  - intros Hex. apply (H1 "Python" "python"); [rewrite Hex; set_solver | reflexivity].
  - intros id Hc. rewrite get_stats_repos. split.
    + intros Hn. destruct (decide (id ∈ _exclude_repos self)); [assumption|].
      exfalso. apply Hn. set_solver.
    + set_solver.
Qed.

(** C10: after a pass every entry of the language table is the tally
    of the edges that count, key by key, where an edge without a node,
    or whose node has no name, goes under the key [Other] and an edge
    without a size has 0 bytes: the size of the entry is the sum of
    their bytes, its occurrences their number and its colour that of
    the first of them, and a key without such an edge has no entry.
    Hence every edge of a repository that counts, whatever it lacks, is
    merged unless its key is excluded: its key has an entry with at
    least one occurrence. *)
Theorem incomplete_edges_are_merged (self : t) (net : list (round Json.overview)) :
  let st := self_after (get_stats self net) in
  (forall k,
     entry <$> (the_languages st !! k) = tally (under k (merged_edges self net)))
  /\ (forall r e,
        r ∈ counted self net -> e ∈ edges_of r -> included self e ->
        exists v, the_languages st !! key_of e = Some v
                  /\ 1 <= occurrences v
                  /\ occurrences v
                     = Z.of_nat (length (under (key_of e) (merged_edges self net)))
                  /\ size v
                     = foldr Z.add 0 (bytes_of <$> under (key_of e) (merged_edges self net))).
Proof.
  cbn zeta. split; [intros k; apply get_stats_tally|].
  intros r e Hr He Hi.
  assert (Hin : e ∈ under (key_of e) (merged_edges self net)).
  { unfold under, merged_edges. apply list_elem_of_filter. split; [reflexivity|].
    apply list_elem_of_filter. split; [exact Hi|].
    apply elem_of_concat. exists (edges_of r). split; [|exact He].
    apply list_elem_of_fmap. eauto. }
  pose proof (get_stats_tally self net (key_of e)) as Ht.
  destruct (under (key_of e) (merged_edges self net)) as [|e0 es] eqn:Hu;
    [inversion Hin|].
  cbn [tally] in Ht.
  destruct (the_languages (self_after (get_stats self net)) !! key_of e) as [v|];
    [|discriminate].
  cbn in Ht. injection Ht as Hs Ho Hc. exists v.
  split; [reflexivity|]. cbn [length fmap list_fmap foldr].
  split; [lia|]. split; [exact Ho | exact Hs].
Qed.

End AggregateFacts.


(** C8, witness: the sample object excludes [python] and the first
    sample page reports [Python]. *)
Lemma exclusion_matching_witness :
  Stats.the_languages
    (Stats.self_after (Stats.get_stats Sample.picky Sample.two_pages)) !! "Python"
  = None.
Proof.
  apply (proj1 (proj2 (exclusion_matching Sample.picky Sample.two_pages))).
  reflexivity.
Defined.

(** C10, witness: the page whose repository reports an edge with no
    field at all, an edge of 10 bytes without a name, [C] with 30 bytes
    and [Go] without a size.  [Other] counts 10 bytes in 2 occurrences
    and [Go] 0 bytes in 1. *)
Lemma incomplete_edges_are_merged_witness :
  Reported.entry
    <$> (Stats.the_languages
           (Stats.self_after (Stats.get_stats Sample.fresh [Sample.ok Sample.ragged_page]))
         !! "Other")
  = Some (10, 2, None)
  /\ Reported.entry
       <$> (Stats.the_languages
              (Stats.self_after (Stats.get_stats Sample.fresh [Sample.ok Sample.ragged_page]))
            !! "Go")
     = Some (0, 1, None).
Proof.
  pose proof (incomplete_edges_are_merged Sample.fresh [Sample.ok Sample.ragged_page])
    as [Ht _].
  split; [rewrite (Ht "Other") | rewrite (Ht "Go")]; vm_compute; reflexivity.
Defined.

(** * The pagination of the overview *)

Section PaginationFacts.
Import Py Queries Stats Reported Probe.

Lemma proportions_never_pending (s : t) : fst (proportions s) <> Pending.
Proof. unfold proportions. repeat case_decide; discriminate. Qed.

(** The pass stops at the first page on which neither collection
    reports a next page, whatever the number of pages in front: with
    answers that all report a next page in front of one that reports
    none, [get_stats] ends after exactly these requests, leaving the
    answers behind unread; that last page has been absorbed like the
    others (the name and the counters are its own, and the repositories
    it lists are in the set unless excluded), also when it is the only
    page; on the answers in front alone the pass is still waiting. *)
Theorem pass_stops_at_last_page (self : t) (before : list (round Json.overview))
    (final : round Json.overview) (rest : list (round Json.overview))
    (raw : Json.overview) :
  Forall (fun a => continues a = true) before ->
  decoded final = Some raw ->
  more_pages raw = false ->
  let r := get_stats self (before ++ final :: rest) in
  result r <> Pending
  /\ net_after r = rest
  /\ requests_via Aiohttp (trace r) = S (length before)
  /\ absorbed (before ++ final :: rest) = omap decoded before ++ [raw]
  /\ _name (self_after r) = Some (display_name (viewer_of raw))
  /\ _issues (self_after r) = Some (page_issues raw)
  /\ _prs (self_after r) = Some (page_prs raw)
  /\ (forall rp,
        rp ∈ listed (_ignore_forked_repos self) raw ->
        Json.nameWithOwner rp ∉ _exclude_repos self ->
        Json.nameWithOwner rp ∈ the_repos (self_after r))
  /\ result (get_stats self before) = Pending.
Proof.
  intros Hc Hd Hm. cbn zeta.
  assert (Hs : stops final = true) by (unfold stops; rewrite Hd, Hm; reflexivity).
  assert (Habs : absorbed (before ++ final :: rest) = omap decoded before ++ [raw]).
  { rewrite (absorbed_returns before final rest Hc Hs), omap_app. cbn.
    rewrite Hd. reflexivity. }
  destruct (pages_returns (exclude_langs_lower (enter_get_stats self)) before
              (enter_get_stats self) None None final rest Hc Hs)
    as (Hr & Hn & Hq & _).
  cbn zeta in Hr, Hn, Hq.
  assert (Hrun : result (get_stats self (before ++ final :: rest)) <> Pending
                 /\ net_after (get_stats self (before ++ final :: rest)) = rest
                 /\ requests_via Aiohttp (trace (get_stats self (before ++ final :: rest)))
                    = S (length before)).
  { unfold get_stats. cbn zeta. rewrite Hr.
    pose proof (proportions_never_pending
      (self_after (pages (exclude_langs_lower (enter_get_stats self))
                     (enter_get_stats self) None None (before ++ final :: rest)))) as Hp.
    destruct (proportions _) as [res s']. cbn [fst] in Hp.
    cbn [result net_after trace]. repeat split; [exact Hp | exact Hn | exact Hq]. }
  destruct Hrun as (H1 & H2 & H3).
  split; [exact H1|]. split; [exact H2|]. split; [exact H3|]. split; [exact Habs|].
  assert (Hlast : last (absorbed (before ++ final :: rest)) = Some raw)
    by (rewrite Habs; apply last_snoc).
  destruct (get_stats_scalars self (before ++ final :: rest))
    as ((Hname & Hi & Hp & _) & _).
  destruct (foldl_absorb_last (exclude_langs_lower self)
              (absorbed (before ++ final :: rest)) (enter_get_stats self) raw Hlast)
    as (Hn' & Hi' & Hp').
  fold (at_loop_exit self (before ++ final :: rest)) in Hn', Hi', Hp'.
  split; [rewrite Hname; exact Hn'|].
  split; [rewrite Hi; exact Hi'|].
  split; [rewrite Hp; exact Hp'|].
  split.
  - intros rp Hrp Hex. rewrite get_stats_repos. apply elem_of_difference.
    split; [|exact Hex]. apply candidate_ids_listed. exists raw, rp.
    split; [|split; [exact Hrp | reflexivity]].
    rewrite Habs. apply elem_of_app. right. left.
  - unfold get_stats. cbn zeta.
    rewrite (pages_pending _ before _ None None Hc). reflexivity.
Qed.

(** C7, the input on which the code fails.  The account has three pages
    of owned repositories and one contributed repository.  The second
    page reports the contributed collection as finished, with an
    [endCursor] of [null]: the default of [.get] at lines 352-354 covers a
    missing key only, so the cursor [c1] of the first round is not
    kept but becomes [None], and the third request asks for the
    contributed collection from its start again.  With the same page
    without the key the cursor is kept. *)
Theorem null_end_cursor_resets_the_cursor :
  documents_via Aiohttp (trace (get_stats Sample.fresh Sample.three_cursor_pages))
  = [repos_overview None None;
     repos_overview (Some "c1") (Some "o1");
     repos_overview None (Some "o2")]
  /\ next_cursor (contrib_repos (viewer_of Sample.cursor_page_2)) (Some "c1") = None
  /\ next_cursor (contrib_repos (viewer_of Sample.cursor_page_2_no_key)) (Some "c1")
     = Some "c1"
  /\ documents_via Aiohttp
       (trace (get_stats Sample.fresh
                 [Sample.ok Sample.cursor_page_1; Sample.ok Sample.cursor_page_2_no_key;
                  Sample.ok Sample.cursor_page_3]))
     = [repos_overview None None;
        repos_overview (Some "c1") (Some "o1");
        repos_overview (Some "c1") (Some "o2")].
Proof. repeat split; vm_compute; reflexivity. Qed.

End PaginationFacts.

(** The two sample pages: the pass ends after two requests with the
    counters of the last page and both repositories of the last page
    accounted for, [a/b] in the set and [secret/z] excluded. *)
Lemma pass_stops_at_last_page_witness :
  Stats.result (Stats.get_stats Sample.picky Sample.two_pages) <> Py.Pending
  /\ Queries.requests_via Queries.Aiohttp
       (Stats.trace (Stats.get_stats Sample.picky Sample.two_pages)) = 2%nat
  /\ Stats._issues (Stats.self_after (Stats.get_stats Sample.picky Sample.two_pages))
     = Some 30
  /\ (Some "a/b" ∈ Stats.the_repos
                     (Stats.self_after (Stats.get_stats Sample.picky Sample.two_pages)))
  /\ Stats.result (Stats.get_stats Sample.picky [Sample.ok Sample.first_page]) = Py.Pending.
Proof.
  assert (Hc : Forall (fun a => Stats.continues a = true) [Sample.ok Sample.first_page])
    by (constructor; [reflexivity | constructor]).
  pose proof (pass_stops_at_last_page Sample.picky
    [Sample.ok Sample.first_page] (Sample.ok Sample.last_page) [] Sample.last_page
    Hc eq_refl eq_refl) as (H1 & _ & H3 & _ & _ & H6 & _ & H8 & H9).
  split; [exact H1|]. split; [exact H3|]. split; [exact H6|]. split; [|exact H9].
  apply (H8 (Json.RepoNode (Some "a/b")
               (Some (Json.LangConn (Some [Sample.edge "C" 7]))))).
  - vm_compute. left.
  - change (Some "a/b" ∉ ({[Some "secret/z"]} : gset (option string))).
    rewrite not_elem_of_singleton. discriminate.
Defined.

(** * The proportion pass *)

Section ProportionFacts.
Import Py Queries Stats.

(** C6, the input on which the code fails: a single page whose only
    language has 0 bytes.  The table is not empty, its sizes sum to 0,
    and line 362 raises [ZeroDivisionError] before any proportion is
    stored. *)
Theorem zero_total_raises :
  result (get_stats Sample.fresh [Sample.ok Sample.zero_bytes_page])
  = Raised ZeroDivisionError
  /\ the_languages (self_after (get_stats Sample.fresh [Sample.ok Sample.zero_bytes_page]))
     = {["Text" := LangStat 0 1 None None]}.
Proof. split; vm_compute; reflexivity. Qed.

End ProportionFacts.

(** * The lazy properties, read one after the other *)

Section ReadFacts.
Import Py Queries Stats EventLoop.

(** The properties of lines 364-424 are the fast path followed, when the
    slot is empty, by a pass and the end of the property. *)
Lemma read_in_steps_correct (f : field) (obj : t) (net : list (round Json.overview)) :
  read f obj net = read_in_steps f obj net.
Proof.
  unfold read_in_steps, cached, finish.
  destruct f;
    unfold read, fmap_run, Stats.name, languages, languages_proportional, repos,
      issues, prs, assert_some, bind, attr, ret, raise;
    cbn [result self_after net_after trace].
  - destruct (_name obj); cbn; [reflexivity|].
    destruct (get_stats obj net) as [[[]|e|] s' net' tr]; cbn;
      [destruct (_name s'); cbn|..]; rewrite ?app_nil_r; reflexivity.
  - destruct (_languages obj); cbn; [reflexivity|].
    destruct (get_stats obj net) as [[[]|e|] s' net' tr]; cbn;
      [destruct (_languages s'); cbn|..]; rewrite ?app_nil_r; reflexivity.
  - destruct (_languages obj); cbn; [reflexivity|].
    destruct (get_stats obj net) as [[[]|e|] s' net' tr]; cbn;
      [destruct (_languages s'); cbn|..]; rewrite ?app_nil_r; reflexivity.
  - destruct (_repos obj); cbn; [reflexivity|].
    destruct (get_stats obj net) as [[[]|e|] s' net' tr]; cbn;
      [destruct (_repos s'); cbn|..]; rewrite ?app_nil_r; reflexivity.
  - destruct (_issues obj) eqn:Hi; cbn; [rewrite Hi; reflexivity|].
    destruct (get_stats obj net) as [[[]|e|] s' net' tr]; cbn;
      rewrite ?app_nil_r; reflexivity.
  - destruct (_prs obj) eqn:Hp; cbn; [rewrite Hp; reflexivity|].
    destruct (get_stats obj net) as [[[]|e|] s' net' tr]; cbn;
      rewrite ?app_nil_r; reflexivity.
Qed.

Lemma pages_no_execution (ex : gset string) (net : list (round Json.overview)) :
  forall (s : t) (no nc : option string),
  executions (trace (pages ex s no nc net)) = 0%nat.
Proof.
  induction net as [|a net IH]; intros s no nc; [reflexivity|].
  cbn [pages]. pose proof (overview_round_trace ex s no nc a) as [He _].
  destruct (overview_round ex s no nc a) as [[s'|s' no' nc'|e s'] evs];
    cbn [snd trace] in *; [exact He | | exact He].
  unfold executions in *. rewrite count_app, He, IH. reflexivity.
Qed.

(** A call of [get_stats] is one execution. *)
Lemma get_stats_one_execution (obj : t) (net : list (round Json.overview)) :
  executions (trace (get_stats obj net)) = 1%nat.
Proof.
  unfold get_stats.
  pose proof (pages_no_execution (exclude_langs_lower (enter_get_stats obj)) net
                (enter_get_stats obj) None None) as Hp.
  destruct (pages (exclude_langs_lower (enter_get_stats obj)) (enter_get_stats obj)
              None None net) as [[[]|e|] s' net' tr]; cbn [result trace self_after] in *;
    [destruct (proportions s')|..]; cbn [trace];
    unfold executions, count in *; cbn; rewrite Hp; reflexivity.
Qed.

Lemma add_repo_containers (ex : gset string) (s : t) (r : option Json.repo_node) :
  is_Some (_languages s) -> is_Some (_repos s) ->
  is_Some (_languages (add_repo ex s r)) /\ is_Some (_repos (add_repo ex s r)).
Proof.
  intros Hl Hr. unfold add_repo. destruct r as [r|]; [|auto].
  case_decide; [auto|]. cbn. split; eexists; reflexivity.
Qed.

Lemma foldl_add_repo_containers (ex : gset string) (rs : list (option Json.repo_node)) :
  forall s : t, is_Some (_languages s) -> is_Some (_repos s) ->
  is_Some (_languages (foldl (add_repo ex) s rs))
  /\ is_Some (_repos (foldl (add_repo ex) s rs)).
Proof.
  induction rs as [|r rs IH]; intros s Hl Hr; cbn [foldl]; [auto|].
  destruct (add_repo_containers ex s r Hl Hr). apply IH; assumption.
Qed.

Lemma foldl_absorb_containers (ex : gset string) (raws : list Json.overview) :
  forall s : t, is_Some (_languages s) -> is_Some (_repos s) ->
  is_Some (_languages (foldl (absorb ex) s raws))
  /\ is_Some (_repos (foldl (absorb ex) s raws)).
Proof.
  induction raws as [|raw raws IH]; intros s Hl Hr; cbn [foldl]; [auto|].
  apply IH; unfold absorb; apply foldl_add_repo_containers; assumption.
Qed.

Lemma pages_returned_absorbs (ex : gset string) (net : list (round Json.overview))
    (s : t) (no nc : option string) :
  result (pages ex s no nc net) = Returned () -> absorbed net <> [].
Proof.
  destruct net as [|a net]; [discriminate|]. cbn [pages absorbed].
  destruct (decoded a) as [raw|] eqn:Hd; [discriminate|].
  destruct (overview_round_fails ex s no nc a Hd) as [e Hr].
  destruct (overview_round ex s no nc a) as [e' evs]. cbn [fst] in Hr. subst e'.
  discriminate.
Qed.

(** A pass that returns leaves every slot with a value. *)
Lemma get_stats_populates (obj : t) (net : list (round Json.overview)) :
  result (get_stats obj net) = Returned () -> populated (self_after (get_stats obj net)).
Proof.
  intros Hret.
  assert (Hne : absorbed net <> []).
  { unfold get_stats in Hret.
    pose proof (pages_returned_absorbs (exclude_langs_lower (enter_get_stats obj)) net
                  (enter_get_stats obj) None None) as Hp.
    destruct (result (pages (exclude_langs_lower (enter_get_stats obj))
                        (enter_get_stats obj) None None net)) as [[]|e|];
      [apply Hp; reflexivity | discriminate..]. }
  destruct (last (absorbed net)) as [raw|] eqn:Hl;
    [|apply last_None in Hl; contradiction].
  destruct (foldl_absorb_last (exclude_langs_lower obj) (absorbed net)
              (enter_get_stats obj) raw Hl) as (Hn & Hi & Hp).
  destruct (foldl_absorb_containers (exclude_langs_lower obj) (absorbed net)
              (enter_get_stats obj)) as (Hla & Hre); [eexists; reflexivity..|].
  fold (at_loop_exit obj net) in Hn, Hi, Hp, Hla, Hre.
  destruct (get_stats_scalars obj net) as ((Hn' & Hi' & Hp' & _) & Hr').
  unfold populated. rewrite Hn', Hi', Hp', Hr', Hn, Hi, Hp.
  repeat split; try (eexists; reflexivity); [|exact Hre].
  destruct (get_stats_self_after obj net) as [-> | ->]; [exact Hla|].
  unfold proportions. repeat case_decide; cbn; [exact Hla..|eexists; reflexivity].
Qed.

Lemma cached_populated (f : field) (obj : t) :
  populated obj -> is_Some (cached f obj).
Proof.
  intros ([n Hn] & [l Hl] & [r Hr] & [i Hi] & [p Hp]).
  destruct f; cbn; rewrite ?Hn, ?Hl, ?Hr, ?Hi, ?Hp; eexists; reflexivity.
Qed.

(** On a populated object no read starts a pass or changes anything. *)
Lemma read_all_populated (fs : list field) :
  forall (obj : t) (net : list (round Json.overview)),
  populated obj ->
  trace (read_all fs obj net) = [] /\ self_after (read_all fs obj net) = obj.
Proof.
  induction fs as [|f fs IH]; intros obj net Hp; [split; reflexivity|].
  cbn [read_all]. unfold bind. rewrite read_in_steps_correct.
  unfold read_in_steps. destruct (cached_populated f obj Hp) as [v ->].
  cbn [result self_after net_after trace].
  destruct (IH obj net Hp) as (Ht & Hs).
  destruct (read_all fs obj net) as [[vs|e|] s' net' tr]; cbn in *; subst; auto.
Qed.

(** However many properties are read one after the other, and whatever
    the answers, [get_stats] is executed at most once. *)
Theorem sequential_reads_one_pass (fs : list field) :
  forall (obj : t) (net : list (round Json.overview)),
  (executions (trace (read_all fs obj net)) <= 1)%nat.
Proof.
  induction fs as [|f fs IH]; intros obj net; [cbn; lia|].
  cbn [read_all]. unfold bind at 1. rewrite read_in_steps_correct.
  unfold read_in_steps. destruct (cached f obj) as [v|].
  - cbn [result self_after net_after trace]. unfold bind at 1.
    specialize (IH obj net).
    destruct (read_all fs obj net) as [[vs|e|] s' net' tr]; cbn in *; 
      rewrite ?app_nil_r; exact IH.
  - pose proof (get_stats_one_execution obj net) as H1.
    pose proof (get_stats_populates obj net) as Hpop.
    destruct (get_stats obj net) as [[[]|e|] s' net' tr];
      cbn [result self_after net_after trace] in *; [|lia..].
    destruct (finish f s') as [v|e|]; cbn [result self_after net_after trace];
      [|lia..].
    unfold bind at 1.
    destruct (read_all_populated fs s' net' (Hpop eq_refl)) as (Ht & _).
    destruct (read_all fs s' net') as [[vs|e|] s'' net'' tr'];
      cbn [result self_after net_after trace] in *; subst tr';
      cbn; rewrite ?app_nil_r; lia.
Qed.

(** C4, the input on which the code fails: [issues] or [prs] read on a
    new object.  [__init__] stores 0 in both slots, so the test against
    [None] never holds: the read returns 0 without any request and
    without running [get_stats], whatever the service would answer. *)
Theorem counters_read_before_pass (exclude_repos : option (gset (option string)))
    (exclude_langs : option (gset string)) (ignore_forked_repos : bool)
    (net : list (round Json.overview)) :
  let obj := init exclude_repos exclude_langs ignore_forked_repos in
  issues obj net = Run (Returned (Some 0)) obj net []
  /\ prs obj net = Run (Returned (Some 0)) obj net []
  /\ executions (trace (read_all [FIssues; FPrs] obj net)) = 0%nat.
Proof. cbn zeta. repeat split. Qed.

End ReadFacts.

(** The same read before and after the pass that [name] starts: 0
    first, the 30 issues of the service afterwards. *)
Lemma counters_depend_on_read_order :
  Stats.result (Stats.read_all [Stats.FIssues; Stats.FName; Stats.FIssues]
                  Sample.fresh Sample.two_pages)
  = Py.Returned [Stats.VCount (Some 0); Stats.VName "octocat"; Stats.VCount (Some 30)].
Proof. vm_compute. reflexivity. Qed.

(** * Reads that overlap *)

Section OverlapFacts.
Import Py Queries Stats EventLoop.

Lemma resume_no_execution (f : field) (ex : gset string) (no nc : option string)
    (obj : t) (answer : round Json.overview) :
  executions (snd (resume f ex no nc obj answer)) = 0%nat
  /\ forall g, fst (fst (resume f ex no nc obj answer)) <> Created g.
Proof.
  unfold resume. pose proof (overview_round_trace ex obj no nc answer) as [He _].
  destruct (overview_round ex obj no nc answer) as [[s'|s' no' nc'|e s'] evs];
    cbn [snd] in He.
  - destruct (proportions s') as [[[]|e|] s'']; cbn; split; (exact He || discriminate).
  - cbn. split; [exact He | discriminate].
  - cbn. split; [exact He | discriminate].
Qed.

(** Once every task has been started, no step starts a pass. *)
Lemma step_all_started (st : state) (a : action) :
  all_started st ->
  all_started (step st a) /\ executions (log (step st a)) = executions (log st).
Proof.
  intros Hall. destruct a as [i|i answer]; cbn [step].
  - destruct (tasks st !! i) as [[f|f ex no nc|f v]|] eqn:Hi; [|auto..].
    exfalso. exact (Hall i f Hi).
  - destruct (tasks st !! i) as [[f|f ex no nc|f v]|] eqn:Hi; [auto| |auto..].
    pose proof (resume_no_execution f ex no nc (self st) answer) as [He Hc].
    destruct (resume f ex no nc (self st) answer) as [[tk obj] evs].
    cbn [fst snd tasks log] in *. split.
    + intros j g Hj. cbn [tasks] in Hj. destruct (decide (i = j)) as [->|Hne].
      * rewrite list_lookup_insert_eq in Hj by (eapply lookup_lt_Some; exact Hi).
        injection Hj as Hj. exact (Hc g Hj).
      * rewrite list_lookup_insert_ne in Hj by exact Hne. exact (Hall j g Hj).
    + unfold executions in *. rewrite count_app, He. lia.
Qed.

Lemma exec_all_started (schedule : list action) :
  forall st : state, all_started st ->
  executions (log (exec schedule st)) = executions (log st).
Proof.
  unfold exec. induction schedule as [|a schedule IH]; intros st Hall; [reflexivity|].
  cbn [foldl]. destruct (step_all_started st a Hall) as [Hall' He].
  rewrite IH by exact Hall'. exact He.
Qed.

(** C9, as the code has it: nothing in the properties records that a
    pass is in flight.  Take two reads among [name], [languages],
    [languages_proportional] and [repos], started one after the other on
    a new object, the answers arriving afterwards in any order.  When
    the second read is [name], whose slot the first pass has not
    assigned yet, it starts a pass of its own and [get_stats] is
    executed twice.  Otherwise the second read finds the slot that lines
    292-293 of the first pass have assigned: [get_stats] is executed
    once, and the second read does not wait for that pass but returns at
    once; for [languages_proportional] what it returns is the empty
    mapping. *)
Theorem overlapping_reads_passes (exclude_repos : option (gset (option string)))
    (exclude_langs : option (gset string)) (ignore_forked_repos : bool)
    (f1 f2 : field) (schedule : list action) :
  starts_pass f1 = true ->
  starts_pass f2 = true ->
  let obj := init exclude_repos exclude_langs ignore_forked_repos in
  let started := exec [Start 0%nat; Start 1%nat] (spawn obj [f1; f2]) in
  executions (log (exec (Start 0%nat :: Start 1%nat :: schedule) (spawn obj [f1; f2])))
  = match f2 with FName => 2%nat | _ => 1%nat end
  /\ (f2 = FName ->
      exists ex, tasks started !! 1%nat = Some (Suspended FName ex None None))
  /\ (f2 <> FName ->
      exists v, tasks started !! 1%nat = Some (Finished f2 (Returned v)))
  /\ (f2 = FLanguagesProportional ->
      tasks started !! 1%nat
      = Some (Finished FLanguagesProportional (Returned (VProps ∅)))).
Proof.
  intros H1 H2. cbn zeta. split; [|split; [|split]].
  - change (exec (Start 0%nat :: Start 1%nat :: schedule) ?st)
      with (exec schedule (exec [Start 0%nat; Start 1%nat] st)).
    rewrite exec_all_started.
    + destruct f1, f2; try discriminate; reflexivity.
    + intros i f. destruct f1, f2; destruct i as [|[|i]]; discriminate.
  - intros ->. destruct f1; try discriminate; eexists; reflexivity.
  - intros Hne. destruct f1, f2; try discriminate; try contradiction;
      eexists; reflexivity.
  - intros ->. destruct f1; try discriminate; reflexivity.
Qed.

End OverlapFacts.

(** C9, counterexample.  [languages] and [name] are read concurrently
    on a new object and both passes are answered with the two sample
    pages: [get_stats] is executed twice.  And when [name] and
    [languages_proportional] are read concurrently, [get_stats] is
    executed once but the second reader does not observe its result: it
    has returned the empty mapping before the first answer, while the
    pass ends with a table that holds [Go]. *)
Lemma overlapping_reads_not_single_flight :
  (Stats.executions
     (EventLoop.log
        (EventLoop.exec
           [EventLoop.Start 0; EventLoop.Start 1;
            EventLoop.Deliver 0 (Sample.ok Sample.first_page);
            EventLoop.Deliver 1 (Sample.ok Sample.first_page);
            EventLoop.Deliver 0 (Sample.ok Sample.last_page);
            EventLoop.Deliver 1 (Sample.ok Sample.last_page)]
           (EventLoop.spawn Sample.fresh [Stats.FLanguages; Stats.FName])))
   = 2%nat
   /\ Stats.executions
        (EventLoop.log
           (EventLoop.exec
              [EventLoop.Start 0; EventLoop.Start 1;
               EventLoop.Deliver 0 (Sample.ok Sample.first_page);
               EventLoop.Deliver 1 (Sample.ok Sample.first_page);
               EventLoop.Deliver 0 (Sample.ok Sample.last_page);
               EventLoop.Deliver 1 (Sample.ok Sample.last_page)]
              (EventLoop.spawn Sample.fresh [Stats.FLanguages; Stats.FName])))
      <> 1%nat)
  /\ (Stats.executions
        (EventLoop.log
           (EventLoop.exec
              [EventLoop.Start 0; EventLoop.Start 1;
               EventLoop.Deliver 0 (Sample.ok Sample.first_page);
               EventLoop.Deliver 0 (Sample.ok Sample.last_page)]
              (EventLoop.spawn Sample.fresh [Stats.FName; Stats.FLanguagesProportional])))
      = 1%nat
      /\ EventLoop.tasks
           (EventLoop.exec
              [EventLoop.Start 0; EventLoop.Start 1]
              (EventLoop.spawn Sample.fresh [Stats.FName; Stats.FLanguagesProportional]))
         !! 1%nat
         = Some (EventLoop.Finished Stats.FLanguagesProportional
                   (Py.Returned (Stats.VProps ∅)))
      /\ EventLoop.tasks
           (EventLoop.exec
              [EventLoop.Start 0; EventLoop.Start 1;
               EventLoop.Deliver 0 (Sample.ok Sample.first_page);
               EventLoop.Deliver 0 (Sample.ok Sample.last_page)]
              (EventLoop.spawn Sample.fresh [Stats.FName; Stats.FLanguagesProportional]))
         = [EventLoop.Finished Stats.FName (Py.Returned (Stats.VName "octocat"));
            EventLoop.Finished Stats.FLanguagesProportional
              (Py.Returned (Stats.VProps ∅))]
      /\ Stats.size
           <$> (Stats.the_languages
                  (EventLoop.self
                     (EventLoop.exec
                        [EventLoop.Start 0; EventLoop.Start 1;
                         EventLoop.Deliver 0 (Sample.ok Sample.first_page);
                         EventLoop.Deliver 0 (Sample.ok Sample.last_page)]
                        (EventLoop.spawn Sample.fresh
                           [Stats.FName; Stats.FLanguagesProportional])))
                !! "Go")
         = Some 40).
Proof.
  split; [split; vm_compute; [reflexivity | discriminate]|].
  repeat split; vm_compute; reflexivity.
Qed.

(** C9, witness: [languages] then [name], answered in the reverse
    order; and [name] then [languages_proportional]. *)
Lemma overlapping_reads_passes_witness :
  Stats.executions
    (EventLoop.log
       (EventLoop.exec
          (EventLoop.Start 0 :: EventLoop.Start 1
           :: [EventLoop.Deliver 1 (Sample.ok Sample.last_page);
               EventLoop.Deliver 0 (Sample.ok Sample.last_page)])
          (EventLoop.spawn (Stats.init None None false) [Stats.FLanguages; Stats.FName])))
  = 2%nat
  /\ EventLoop.tasks
       (EventLoop.exec
          [EventLoop.Start 0; EventLoop.Start 1]
          (EventLoop.spawn (Stats.init None None false)
             [Stats.FName; Stats.FLanguagesProportional]))
     !! 1%nat
     = Some (EventLoop.Finished Stats.FLanguagesProportional
               (Py.Returned (Stats.VProps ∅))).
Proof.
  split.
  - exact (proj1 (overlapping_reads_passes None None false Stats.FLanguages Stats.FName
                    [EventLoop.Deliver 1 (Sample.ok Sample.last_page);
                     EventLoop.Deliver 0 (Sample.ok Sample.last_page)]
                    eq_refl eq_refl)).
  - exact (proj2 (proj2 (proj2
             (overlapping_reads_passes None None false Stats.FName
                Stats.FLanguagesProportional [] eq_refl eq_refl))) eq_refl).
Defined.

(** * One task on the event loop is the sequential read *)

Section AdequacyFacts.
Import Py Queries Stats EventLoop.

Lemma exec_cons (a : action) (schedule : list action) (st : state) :
  exec (a :: schedule) st = exec schedule (step st a).
Proof. reflexivity. Qed.

Lemma deliveries_after_finish (net : list (round Json.overview)) (obj : t)
    (f : field) (v : outcome value) (lg : list event) :
  exec (Deliver 0 <$> net) (State obj [Finished f v] lg) = State obj [Finished f v] lg.
Proof. unfold exec. induction net as [|a net IH]; [reflexivity | exact IH]. Qed.

(** Handing the answers of a supply, in order, to a task suspended in
    the loop does what [pages] does on that supply. *)
Lemma deliveries_follow_pages (f : field) (ex : gset string)
    (net : list (round Json.overview)) :
  forall (s : t) (no nc : option string) (lg : list event),
  let r := pages ex s no nc net in
  let st := exec (Deliver 0 <$> net) (State s [Suspended f ex no nc] lg) in
  log st = lg ++ trace r
  /\ match result r with
     | Returned _ =>
         self st = snd (proportions (self_after r))
         /\ tasks st = [Finished f (closing f (self_after r))]
     | Raised e => self st = self_after r /\ tasks st = [Finished f (Raised e)]
     | Pending =>
         self st = self_after r
         /\ exists no' nc', tasks st = [Suspended f ex no' nc']
     end.
Proof.
  induction net as [|a net IH]; intros s no nc lg; cbn zeta.
  - cbn. rewrite app_nil_r. eauto.
  - cbn [fmap list_fmap]. rewrite exec_cons.
    cbn [step tasks lookup list_lookup self]. unfold resume. cbn [pages].
    destruct (overview_round ex s no nc a) as [[s'|s' no' nc'|e s'] evs].
    + unfold closing. cbn [result self_after trace].
      destruct (proportions s') as [[[]|e|] s''];
        cbn [insert list_insert log fst snd];
        rewrite deliveries_after_finish; cbn; auto.
    + cbn [insert list_insert log]. specialize (IH s' no' nc' (lg ++ evs)).
      cbn zeta in IH. destruct IH as (Hl & IH).
      cbn [result self_after trace]. rewrite Hl, app_assoc. split; [reflexivity|].
      exact IH.
    + cbn [insert list_insert log]. rewrite deliveries_after_finish. cbn. auto.
Qed.

(** The event loop agrees with the coroutines of [Stats] on a single
    read answered from a supply: same object, same trace and, when the
    read finishes, same outcome. *)
Lemma single_task_is_sequential (f : field) (obj : t)
    (net : list (round Json.overview)) :
  let r := read f obj net in
  let st := exec (Start 0 :: (Deliver 0 <$> net)) (spawn obj [f]) in
  self st = self_after r
  /\ log st = trace r
  /\ (result r <> Pending -> tasks st = [Finished f (result r)]).
Proof.
  cbn zeta. rewrite read_in_steps_correct. unfold read_in_steps.
  rewrite exec_cons.
  cbn [spawn fmap list_fmap step tasks lookup list_lookup self log]. unfold start.
  destruct (cached f obj) as [v|].
  - cbn [insert list_insert app]. rewrite deliveries_after_finish. cbn. auto.
  - cbn [insert list_insert app].
    destruct (deliveries_follow_pages f (exclude_langs_lower (enter_get_stats obj)) net
                (enter_get_stats obj) None None [EnterGetStats]) as (Hl & Hm).
    cbn zeta in Hl, Hm. unfold get_stats. rewrite Hl.
    destruct (result (pages (exclude_langs_lower (enter_get_stats obj))
                        (enter_get_stats obj) None None net)) as [[]|e|] eqn:Hr.
    + destruct Hm as (Hs & Ht). rewrite Hs, Ht. unfold closing.
      destruct (proportions (self_after (pages (exclude_langs_lower (enter_get_stats obj))
                  (enter_get_stats obj) None None net))) as [res s']. cbn.
      repeat split; intros _; destruct res as [[]|e|]; reflexivity.
    + destruct Hm as (Hs & Ht). rewrite Hs, Ht. cbn. auto.
    + destruct Hm as (Hs & _). rewrite Hs. cbn. repeat split; intros Hc; contradiction.
Qed.

End AdequacyFacts.

(** * The contribution total *)

Section ContributionFacts.
Import Py Queries Stats Probe.

(** The slot is assigned 0 before the first request (line 434), so
    after any first read, returned or raised, a second read makes no
    request and changes nothing: it returns the value of the first read,
    or 0 when the first read raised. *)
Theorem total_contributions_second_read (self : t)
    (years_answer years_answer' : round Json.years_reply)
    (contribs_answer contribs_answer' : round Json.contribs_reply) :
  let first := total_contributions self years_answer contribs_answer in
  let second := total_contributions (object_of first) years_answer' contribs_answer' in
  trace_of second = []
  /\ object_of second = object_of first
  /\ (forall v, outcome_of first = Returned v -> outcome_of second = Returned v)
  /\ (forall e, outcome_of first = Raised e -> outcome_of second = Returned 0).
Proof.
  cbn zeta. unfold total_contributions, outcome_of, object_of, trace_of.
  destruct (_total_contributions self) as [total|] eqn:Hslot.
  - cbn [fst snd]. rewrite Hslot. cbn. repeat split; intros; congruence.
  - destruct (query contrib_years years_answer) as [[reply|e|] evs]; cbn [fst snd].
    + destruct (query (all_contribs (default [] (Json.contributionYears reply)))
                  contribs_answer) as [[reply'|e|] evs']; cbn;
        repeat split; intros; congruence.
    + cbn. repeat split; intros; congruence.
    + cbn. repeat split; intros; congruence.
Qed.

Lemma add_repo_set_total (ex : gset string) (v : option Z) (s : t)
    (r : option Json.repo_node) :
  add_repo ex (set_total_contributions v s) r
  = set_total_contributions v (add_repo ex s r).
Proof.
  unfold add_repo. destruct r as [r|]; [|reflexivity].
  change (the_repos (set_total_contributions v s)) with (the_repos s).
  change (_exclude_repos (set_total_contributions v s)) with (_exclude_repos s).
  case_decide; reflexivity.
Qed.

Lemma foldl_add_repo_set_total (ex : gset string) (v : option Z)
    (rs : list (option Json.repo_node)) :
  forall s : t,
  foldl (add_repo ex) (set_total_contributions v s) rs
  = set_total_contributions v (foldl (add_repo ex) s rs).
Proof.
  induction rs as [|r rs IH]; intros s; cbn [foldl]; [reflexivity|].
  rewrite add_repo_set_total. apply IH.
Qed.

Lemma absorb_set_total (ex : gset string) (v : option Z) (s : t) (raw : Json.overview) :
  absorb ex (set_total_contributions v s) raw
  = set_total_contributions v (absorb ex s raw).
Proof. unfold absorb. rewrite <- foldl_add_repo_set_total. reflexivity. Qed.

Lemma proportions_set_total (v : option Z) (s : t) :
  proportions (set_total_contributions v s)
  = (fst (proportions s), set_total_contributions v (snd (proportions s))).
Proof.
  unfold proportions.
  change (the_languages (set_total_contributions v s)) with (the_languages s).
  repeat case_decide; reflexivity.
Qed.

Lemma pages_set_total (ex : gset string) (v : option Z)
    (net : list (round Json.overview)) :
  forall (s : t) (no nc : option string),
  pages ex (set_total_contributions v s) no nc net
  = let r := pages ex s no nc net in
    Run (result r) (set_total_contributions v (self_after r)) (net_after r) (trace r).
Proof.
  induction net as [|a net IH]; intros s no nc; [reflexivity|].
  cbn [pages]. unfold overview_round.
  destruct (query (repos_overview nc no) a) as [[raw|e|] evs]; [|reflexivity..].
  rewrite absorb_set_total.
  destruct (more_pages raw); [|reflexivity].
  rewrite IH. reflexivity.
Qed.

(** Assigning the contribution slot before a pass or after it gives the
    same run. *)
Lemma get_stats_set_total (v : option Z) (s : t) (net : list (round Json.overview)) :
  get_stats (set_total_contributions v s) net
  = let r := get_stats s net in
    Run (result r) (set_total_contributions v (self_after r)) (net_after r) (trace r).
Proof.
  unfold get_stats.
  change (enter_get_stats (set_total_contributions v s))
    with (set_total_contributions v (enter_get_stats s)).
  change (exclude_langs_lower (set_total_contributions v (enter_get_stats s)))
    with (exclude_langs_lower (enter_get_stats s)).
  rewrite pages_set_total. cbn zeta. cbn [result self_after net_after trace].
  destruct (result (pages (exclude_langs_lower (enter_get_stats s)) (enter_get_stats s)
                      None None net)); [|reflexivity..].
  rewrite proportions_set_total.
  destruct (proportions (self_after (pages (exclude_langs_lower (enter_get_stats s))
                      (enter_get_stats s) None None net))). reflexivity.
Qed.

(** The pass never touches the contribution slot. *)
Lemma get_stats_keeps_total (s : t) (net : list (round Json.overview)) :
  _total_contributions (self_after (get_stats s net)) = _total_contributions s.
Proof.
  destruct (get_stats_scalars s net) as ((_ & _ & _ & -> & _) & _).
  unfold at_loop_exit.
  destruct (foldl_absorb_config (exclude_langs_lower s) (absorbed net)
              (enter_get_stats s)) as (_ & _ & _ & ->). reflexivity.
Qed.

(** What [total_contributions] does depends on the slot alone, and the
    slot is all it assigns. *)
Lemma total_contributions_by_slot (s : t) (ya : round Json.years_reply)
    (ca : round Json.contribs_reply) :
  exists (res : outcome Z) (v : option Z) (tr : list event),
    forall s' : t, _total_contributions s' = _total_contributions s ->
    total_contributions s' ya ca = (res, set_total_contributions v s', tr).
Proof.
  unfold total_contributions.
  destruct (_total_contributions s) as [total|].
  - exists (Returned total), (Some total), []. intros s' Hs'. rewrite Hs'.
    destruct s'; cbn in *. subst. reflexivity.
  - destruct (query contrib_years ya) as [[reply|e|] evs].
    + destruct (query (all_contribs (default [] (Json.contributionYears reply))) ca)
        as [[reply'|e|] evs'];
        eexists _, _, _; intros s' ->; reflexivity.
    + eexists _, _, _; intros s' ->; reflexivity.
    + eexists _, _, _; intros s' ->; reflexivity.
Qed.

(** The pass and the contribution total are independent: run in either
    order, on the same answers, they end with the same object, the same
    outcomes and the same requests. *)
Theorem pass_and_contributions_commute (self : t) (net : list (round Json.overview))
    (years_answer : round Json.years_reply)
    (contribs_answer : round Json.contribs_reply) :
  let pass_first := get_stats self net in
  let then_total := total_contributions (self_after pass_first) years_answer contribs_answer in
  let total_first := total_contributions self years_answer contribs_answer in
  let then_pass := get_stats (object_of total_first) net in
  object_of then_total = self_after then_pass
  /\ outcome_of then_total = outcome_of total_first
  /\ trace_of then_total = trace_of total_first
  /\ result pass_first = result then_pass
  /\ trace pass_first = trace then_pass
  /\ net_after pass_first = net_after then_pass.
Proof.
  cbn zeta.
  destruct (total_contributions_by_slot self years_answer contribs_answer)
    as (res & v & tr & Hby).
  rewrite (Hby self eq_refl).
  rewrite (Hby (self_after (get_stats self net)) (get_stats_keeps_total self net)).
  unfold object_of, outcome_of, trace_of. cbn [fst snd].
  rewrite get_stats_set_total. cbn. repeat split.
Qed.

End ContributionFacts.

(** * A pass after another, and what a pass ignores *)

Section RestartFacts.
Import Py Queries Stats Probe.

Lemma absorb_same_setup (ex : gset string) (s1 s2 : t) (raw : Json.overview) :
  same_setup s1 s2 -> _languages s2 = _languages s1 -> _repos s2 = _repos s1 ->
  absorb ex s2 raw = absorb ex s1 raw.
Proof.
  intros (Hi & Her & Hel & Ht) Hl Hr.
  destruct s1, s2. cbn in *. subst. reflexivity.
Qed.

Lemma pages_same_setup (ex : gset string) (net : list (round Json.overview))
    (s1 s2 : t) (no nc : option string) :
  same_setup s1 s2 -> _languages s2 = _languages s1 -> _repos s2 = _repos s1 ->
  absorbed net <> [] ->
  pages ex s2 no nc net = pages ex s1 no nc net.
Proof.
  intros Hs Hl Hr Hne. destruct net as [|a net]; [contradiction|].
  cbn [pages absorbed] in *. unfold overview_round. unfold decoded in Hne.
  rewrite (query_result_any_document _ (repos_overview nc no)) in Hne.
  destruct (query (repos_overview nc no) a) as [[raw|e|] evs]; cbn [fst] in Hne;
    [|contradiction..].
  rewrite (absorb_same_setup ex s1 s2 raw Hs Hl Hr). reflexivity.
Qed.

Lemma get_stats_same_setup (s : t) (net : list (round Json.overview)) :
  same_setup s (self_after (get_stats s net)).
Proof.
  destruct (get_stats_scalars s net) as ((_ & _ & _ & Ht & Her & Hel & Hi) & _).
  unfold at_loop_exit in *.
  destruct (foldl_absorb_config (exclude_langs_lower s) (absorbed net)
              (enter_get_stats s)) as (Her' & Hel' & Hi' & Ht').
  unfold same_setup. rewrite Ht, Her, Hel, Hi, Ht', Her', Hel', Hi'. repeat split.
Qed.

Lemma pages_without_answer (ex : gset string) (net : list (round Json.overview))
    (s : t) (no nc : option string) :
  absorbed net = [] -> self_after (pages ex s no nc net) = s.
Proof. intros He. rewrite pages_self_after, He. reflexivity. Qed.

Lemma get_stats_not_returned (s : t) (net : list (round Json.overview)) :
  result (get_stats s net) <> Returned () ->
  self_after (get_stats s net) = at_loop_exit s net.
Proof.
  unfold get_stats, at_loop_exit.
  pose proof (pages_self_after (exclude_langs_lower (enter_get_stats s)) net
                (enter_get_stats s) None None) as Hs.
  change (exclude_langs_lower (enter_get_stats s)) with (exclude_langs_lower s) in *.
  destruct (result (pages (exclude_langs_lower s) (enter_get_stats s) None None net))
    as [[]|e|]; cbn [result self_after]; [|intros _; exact Hs..].
  rewrite <- Hs.
  destruct (proportions (self_after (pages (exclude_langs_lower s) (enter_get_stats s)
              None None net))) as [res s'] eqn:Hp. cbn [result self_after].
  unfold proportions in Hp. repeat case_decide; injection Hp as <- <-;
    [contradiction | reflexivity | contradiction].
Qed.

(** Lines 292-293 make every pass start from empty containers: a pass
    that runs after another one and absorbs at least one page is the pass
    a new object would run on the same answers (nothing accumulates);
    and a pass that absorbs no page, because the supply is empty or its
    first request fails, leaves the containers empty and the name and
    the counters as the earlier pass left them. *)
Theorem pass_starts_afresh (s : t) (earlier net : list (round Json.overview)) :
  let s' := self_after (get_stats s earlier) in
  (absorbed net <> [] -> get_stats s' net = get_stats s net)
  /\ (absorbed net = [] ->
      self_after (get_stats s' net) = enter_get_stats s'
      /\ the_languages (self_after (get_stats s' net)) = ∅
      /\ the_repos (self_after (get_stats s' net)) = ∅
      /\ _name (self_after (get_stats s' net)) = _name s'
      /\ _issues (self_after (get_stats s' net)) = _issues s'
      /\ _prs (self_after (get_stats s' net)) = _prs s').
Proof.
  cbn zeta. pose proof (get_stats_same_setup s earlier) as Hs.
  remember (self_after (get_stats s earlier)) as s' eqn:Es'. clear Es'. split.
  - intros Hne. unfold get_stats.
    assert (Hex : exclude_langs_lower (enter_get_stats s')
                  = exclude_langs_lower (enter_get_stats s)).
    { unfold exclude_langs_lower. cbn. destruct Hs as (_ & _ & -> & _). reflexivity. }
    rewrite Hex.
    rewrite (pages_same_setup (exclude_langs_lower (enter_get_stats s)) net
               (enter_get_stats s) (enter_get_stats s') None None);
      [reflexivity | | reflexivity | reflexivity | exact Hne].
    destruct Hs as (? & ? & ? & ?). repeat split; assumption.
  - intros He.
    assert (Hself : self_after (get_stats s' net) = enter_get_stats s').
    { rewrite get_stats_not_returned.
      - unfold at_loop_exit. rewrite He. reflexivity.
      - intros Hr. unfold get_stats in Hr.
        pose proof (pages_returned_absorbs (exclude_langs_lower (enter_get_stats s')) net
                      (enter_get_stats s') None None) as Hp.
        destruct (result (pages (exclude_langs_lower (enter_get_stats s'))
                            (enter_get_stats s') None None net)) as [[]|e|];
          [apply Hp; [reflexivity | exact He] | discriminate..]. }
    rewrite Hself. repeat split.
Qed.

End RestartFacts.

(** Running the pass twice on the sample pages. *)
Lemma pass_starts_afresh_witness :
  Stats.get_stats (Stats.self_after (Stats.get_stats Sample.picky Sample.two_pages))
                  Sample.two_pages
  = Stats.get_stats Sample.picky Sample.two_pages.
Proof.
  apply (proj1 (pass_starts_afresh Sample.picky Sample.two_pages Sample.two_pages)).
  vm_compute. discriminate.
Defined.

Section IgnoreFacts.
Import Py Queries Stats Probe.

Lemma viewer_of_hide (raw : Json.overview) :
  Json.login (viewer_of (hide_contributed raw)) = Json.login (viewer_of raw)
  /\ Json.name (viewer_of (hide_contributed raw)) = Json.name (viewer_of raw)
  /\ Json.pullRequests (viewer_of (hide_contributed raw))
     = Json.pullRequests (viewer_of raw)
  /\ Json.openIssues (viewer_of (hide_contributed raw)) = Json.openIssues (viewer_of raw)
  /\ Json.closedIssues (viewer_of (hide_contributed raw))
     = Json.closedIssues (viewer_of raw)
  /\ owned_repos (viewer_of (hide_contributed raw)) = owned_repos (viewer_of raw)
  /\ Json.pageInfo (contrib_repos (viewer_of (hide_contributed raw)))
     = Json.pageInfo (contrib_repos (viewer_of raw)).
Proof.
  unfold viewer_of, hide_contributed, owned_repos, contrib_repos.
  destruct raw as [[[[[l n p o c r [rc|]]|]]|]]; cbn; repeat split.
Qed.

Lemma absorb_hide (ex : gset string) (s : t) (raw : Json.overview) :
  _ignore_forked_repos s = true ->
  absorb ex s (hide_contributed raw) = absorb ex s raw.
Proof.
  intros Hi. unfold absorb, display_name, candidates.
  destruct (viewer_of_hide raw) as (Hl & Hn & Hp & Ho & Hc & Hr & _).
  rewrite Hl, Hn, Hp, Ho, Hc, Hr. cbn. rewrite Hi. reflexivity.
Qed.

Lemma more_pages_hide (raw : Json.overview) :
  more_pages (hide_contributed raw) = more_pages raw.
Proof.
  unfold more_pages, has_next.
  destruct (viewer_of_hide raw) as (_ & _ & _ & _ & _ & -> & ->). reflexivity.
Qed.

Lemma next_cursor_hide (raw : Json.overview) (prev : option string) :
  next_cursor (owned_repos (viewer_of (hide_contributed raw))) prev
  = next_cursor (owned_repos (viewer_of raw)) prev
  /\ next_cursor (contrib_repos (viewer_of (hide_contributed raw))) prev
     = next_cursor (contrib_repos (viewer_of raw)) prev.
Proof.
  unfold next_cursor.
  destruct (viewer_of_hide raw) as (_ & _ & _ & _ & _ & -> & ->). split; reflexivity.
Qed.

Lemma overview_round_hide (ex : gset string) (s : t) (no nc : option string)
    (a : round Json.overview) :
  _ignore_forked_repos s = true ->
  overview_round ex s no nc (map_round hide_contributed a)
  = overview_round ex s no nc a.
Proof.
  intros Hi.
  assert (Hraw : forall (raw : Json.overview) (evs : list event),
    (let self := absorb ex s (hide_contributed raw) in
     if more_pages (hide_contributed raw) then
       (Again self
          (next_cursor (owned_repos (viewer_of (hide_contributed raw))) no)
          (next_cursor (contrib_repos (viewer_of (hide_contributed raw))) nc), evs)
     else (Break self, evs))
    = (let self := absorb ex s raw in
       if more_pages raw then
         (Again self (next_cursor (owned_repos (viewer_of raw)) no)
                     (next_cursor (contrib_repos (viewer_of raw)) nc), evs)
       else (Break self, evs))).
  { intros raw evs. cbn zeta.
    destruct (next_cursor_hide raw no) as [-> _].
    destruct (next_cursor_hide raw nc) as [_ ->].
    rewrite absorb_hide, more_pages_hide by exact Hi. reflexivity. }
  unfold overview_round, query, map_round. cbn [aio blocking].
  destruct (aio a) as [e|[raw|]]; cbn [map_reply fmap option_fmap option_map].
  - destruct (blocking a) as [e'|[raw|]]; cbn [map_reply fmap option_fmap option_map];
      [reflexivity | apply Hraw | reflexivity].
  - apply Hraw.
  - reflexivity.
Qed.

Lemma pages_hide (ex : gset string) (net : list (round Json.overview)) :
  forall (s : t) (no nc : option string), _ignore_forked_repos s = true ->
  pages ex s no nc (map_round hide_contributed <$> net)
  = let r := pages ex s no nc net in
    Run (result r) (self_after r) (map_round hide_contributed <$> net_after r) (trace r).
Proof.
  induction net as [|a net IH]; intros s no nc Hi; [reflexivity|].
  cbn [fmap list_fmap pages]. rewrite overview_round_hide by exact Hi.
  destruct (overview_round ex s no nc a) as [[s'|s' no' nc'|e s'] evs] eqn:Hr;
    [reflexivity | | reflexivity].
  rewrite IH; [reflexivity|].
  unfold overview_round in Hr.
  destruct (query (repos_overview nc no) a) as [[raw|e|] evs0]; [|discriminate..].
  destruct (more_pages raw); [|discriminate]. injection Hr as <- _ _ _.
  destruct (absorb_scalars ex s raw) as (_ & _ & _ & _ & _ & -> & _). exact Hi.
Qed.

(** With [ignore_forked_repos] set, the nodes of the contributed
    collection play no part: the pass does the same, and ends with the
    same object, when they are taken out of every answer.  The page
    information of that collection is still read: a page goes on as long
    as the contributed collection reports a next page. *)
Theorem ignored_contributions_only_paginate (s : t) (net : list (round Json.overview)) :
  _ignore_forked_repos s = true ->
  (let r := get_stats s net in
   let r' := get_stats s (map_round hide_contributed <$> net) in
   result r' = result r /\ self_after r' = self_after r /\ trace r' = trace r)
  /\ (forall raw, has_next (contrib_repos (viewer_of raw)) = true ->
                  more_pages raw = true).
Proof.
  intros Hi. split.
  - cbn zeta. unfold get_stats. rewrite pages_hide by exact Hi. cbn zeta.
    cbn [result self_after net_after trace].
    destruct (result (pages (exclude_langs_lower (enter_get_stats s)) (enter_get_stats s)
                        None None net)); [|repeat split..].
    destruct (proportions (self_after (pages (exclude_langs_lower (enter_get_stats s))
                        (enter_get_stats s) None None net))). repeat split.
  - intros raw Hn. unfold more_pages. rewrite Hn. apply orb_true_r.
Qed.

End IgnoreFacts.

(** The sample pages read by an object that ignores contributions. *)
Lemma ignored_contributions_only_paginate_witness :
  Stats.self_after
    (Stats.get_stats (Stats.init None None true)
       (Probe.map_round Probe.hide_contributed <$> Sample.two_pages))
  = Stats.self_after (Stats.get_stats (Stats.init None None true) Sample.two_pages).
Proof.
  exact (proj1 (proj2 (proj1 (ignored_contributions_only_paginate
                               (Stats.init None None true) Sample.two_pages eq_refl)))).
Defined.

(** * Empty answers, failed requests and what stays in the slots *)

Section DegradedFacts.
Import Py Queries Stats EventLoop Probe.

(** An answer that decodes to [dict()], as [query] gives for a body
    that decodes to [None], is a page like any other: it has no
    repository, no counters and no name, reports no next page, and so
    ends the loop.  A pass whose first answer is such a page returns
    with empty containers, the name [No Name] and both counters 0. *)
Theorem empty_answer_is_a_last_page (s : t) (a : round Json.overview)
    (rest : list (round Json.overview)) :
  decoded a = Some dict0 ->
  let r := get_stats s (a :: rest) in
  result r = Returned ()
  /\ net_after r = rest
  /\ self_after r
     = set_prs (Some 0) (set_issues (Some 0) (set_name (Some "No Name")
                                                (enter_get_stats s))).
Proof.
  intros Hd. cbn zeta. unfold get_stats. cbn [pages].
  pose proof (overview_round_break (exclude_langs_lower (enter_get_stats s))
                (enter_get_stats s) None None a dict0 Hd eq_refl) as Hb.
  destruct (overview_round (exclude_langs_lower (enter_get_stats s)) (enter_get_stats s)
              None None a) as [e evs]. cbn [fst] in Hb. subst e.
  cbn [result self_after net_after trace].
  assert (Ha : absorb (exclude_langs_lower (enter_get_stats s)) (enter_get_stats s) dict0
               = set_prs (Some 0) (set_issues (Some 0) (set_name (Some "No Name")
                                                         (enter_get_stats s)))).
  { unfold absorb, candidates. cbn. destruct (_ignore_forked_repos s); reflexivity. }
  rewrite Ha. unfold proportions. rewrite decide_True by reflexivity. repeat split.
Qed.

(** A request on which both clients fail ends the pass with the
    exception of the blocking client: the pages absorbed before stay in
    the object, the answers behind the failed one are not asked for, and
    no proportion is stored. *)
Theorem failed_request_ends_the_pass (s : t) (before : list (round Json.overview))
    (e0 e : exn) (rest : list (round Json.overview)) :
  Forall (fun a => continues a = true) before ->
  let r := get_stats s (before ++ Round (Raises e0) (Raises e) :: rest) in
  result r = Raised e
  /\ net_after r = rest
  /\ self_after r = at_loop_exit s before.
Proof.
  intros Hc. cbn zeta.
  assert (Hp : forall (ex : gset string) (l : list (round Json.overview)),
    Forall (fun a => continues a = true) l ->
    forall (s0 : t) (no nc : option string),
    result (pages ex s0 no nc (l ++ Round (Raises e0) (Raises e) :: rest)) = Raised e
    /\ net_after (pages ex s0 no nc (l ++ Round (Raises e0) (Raises e) :: rest)) = rest
    /\ absorbed (l ++ Round (Raises e0) (Raises e) :: rest) = absorbed l).
  { intros ex l Hl. induction Hl as [|a l Ha Hl IH]; intros s0 no nc.
    - cbn. auto.
    - cbn [app pages absorbed]. unfold continues in Ha.
      destruct (decoded a) as [raw|] eqn:Hd; [|discriminate].
      pose proof (overview_round_again ex s0 no nc a raw Hd Ha) as Hr.
      destruct (overview_round ex s0 no nc a) as [en evs]. cbn [fst] in Hr. subst en.
      cbn [result net_after]. rewrite Ha.
      destruct (IH (absorb ex s0 raw)
                  (next_cursor (owned_repos (viewer_of raw)) no)
                  (next_cursor (contrib_repos (viewer_of raw)) nc)) as (? & ? & ->).
      auto. }
  destruct (Hp (exclude_langs_lower (enter_get_stats s)) before Hc (enter_get_stats s)
              None None) as (Hr & Hn & Ha).
  assert (Hres : result (get_stats s (before ++ Round (Raises e0) (Raises e) :: rest))
                 = Raised e).
  { unfold get_stats. rewrite Hr. reflexivity. }
  split; [exact Hres|]. split.
  - unfold get_stats. rewrite Hr. cbn [net_after]. exact Hn.
  - rewrite get_stats_not_returned by (rewrite Hres; discriminate).
    unfold at_loop_exit. rewrite Ha. reflexivity.
Qed.

Lemma add_language_unrated (ex : gset string) (langs : gmap string lang_stat)
    (lang : Json.lang_edge) :
  unrated langs -> unrated (add_language ex langs lang).
Proof.
  unfold unrated, add_language. cbn zeta. intros Hu name v.
  case_decide; [apply Hu|].
  destruct (langs !! lang_name lang) as [v0|] eqn:Hv0;
    (destruct (decide (lang_name lang = name)) as [<-|Hne];
      [rewrite lookup_insert_eq; intros [= <-]; cbn; eauto
      | rewrite lookup_insert_ne by exact Hne; apply Hu]).
Qed.

Lemma foldl_add_language_unrated (ex : gset string) (es : list Json.lang_edge) :
  forall langs : gmap string lang_stat,
  unrated langs -> unrated (foldl (add_language ex) langs es).
Proof.
  induction es as [|e es IH]; intros langs Hu; cbn [foldl]; [exact Hu|].
  apply IH, add_language_unrated, Hu.
Qed.

Lemma foldl_add_repo_unrated (ex : gset string) (rs : list (option Json.repo_node)) :
  forall s : t, unrated (the_languages s) ->
  unrated (the_languages (foldl (add_repo ex) s rs)).
Proof.
  induction rs as [|r rs IH]; intros s Hu; cbn [foldl]; [exact Hu|].
  apply IH. unfold add_repo. destruct r as [r|]; [|exact Hu].
  case_decide; [exact Hu|]. cbn. apply foldl_add_language_unrated, Hu.
Qed.

Lemma at_loop_exit_unrated (s : t) (net : list (round Json.overview)) :
  unrated (the_languages (at_loop_exit s net)).
Proof.
  unfold at_loop_exit.
  assert (Hu : unrated (the_languages (enter_get_stats s))) by (intros name v; discriminate).
  revert Hu. generalize (enter_get_stats s).
  induction (absorbed net) as [|raw raws IH]; intros s0 Hu; cbn [foldl]; [exact Hu|].
  apply IH. unfold absorb. apply foldl_add_repo_unrated. exact Hu.
Qed.

(** After a call of [get_stats], however it ended, [languages],
    [languages_proportional] and [repos] never start another pass: they
    return what the slots hold, without any request.  When the call did
    not return, this is the table as the pass left it, and
    [languages_proportional] gives the proportion 0 for each of its
    languages. *)
Theorem containers_are_served_after_any_pass (s : t)
    (net later : list (round Json.overview)) :
  let s' := self_after (get_stats s net) in
  read FLanguages s' later = Run (Returned (VLanguages (the_languages s'))) s' later []
  /\ read FRepos s' later = Run (Returned (VRepos (the_repos s'))) s' later []
  /\ read FLanguagesProportional s' later
     = Run (Returned (VProps (props (the_languages s')))) s' later []
  /\ (result (get_stats s net) <> Returned () ->
      the_languages s' = the_languages (at_loop_exit s net)
      /\ forall name p, props (the_languages s') !! name = Some p -> p = Q2Qc 0).
Proof.
  cbn zeta.
  assert (Hc : is_Some (_languages (self_after (get_stats s net)))
               /\ is_Some (_repos (self_after (get_stats s net)))).
  { destruct (foldl_absorb_containers (exclude_langs_lower s) (absorbed net)
                (enter_get_stats s)) as (Hla & Hre); [eexists; reflexivity..|].
    fold (at_loop_exit s net) in Hla, Hre.
    destruct (get_stats_scalars s net) as (_ & Hr). rewrite Hr. split; [|exact Hre].
    destruct (get_stats_self_after s net) as [-> | ->]; [exact Hla|].
    unfold proportions. repeat case_decide; cbn; [exact Hla..|eexists; reflexivity]. }
  destruct Hc as ([l Hl] & [r Hr]).
  rewrite !read_in_steps_correct. unfold read_in_steps, cached, the_languages, the_repos.
  rewrite Hl, Hr. cbn.
  split; [reflexivity|]. split; [reflexivity|]. split; [reflexivity|].
  intros Hn. rewrite get_stats_not_returned in Hl by exact Hn.
  split; [rewrite Hl; reflexivity|].
  intros name p. unfold props. rewrite lookup_fmap.
  pose proof (at_loop_exit_unrated s net) as Hu. unfold the_languages in Hu.
  rewrite Hl in Hu. cbn in Hu.
  destruct (l !! name) as [v|] eqn:Hv; cbn; [|discriminate].
  rewrite (Hu name v Hv). intros [= <-]. reflexivity.
Qed.

End DegradedFacts.

(** A first answer whose body decodes to [None]. *)
Lemma empty_answer_is_a_last_page_witness :
  Stats._name
    (Stats.self_after
       (Stats.get_stats Sample.picky
          (Queries.Round (Queries.Json None) (Queries.Raises Py.ClientError)
           :: Sample.two_pages)))
  = Some "No Name".
Proof.
  pose proof (empty_answer_is_a_last_page Sample.picky
                (Queries.Round (Queries.Json None) (Queries.Raises Py.ClientError))
                Sample.two_pages eq_refl) as (_ & _ & Hs).
  rewrite Hs. reflexivity.
Defined.

(** The first sample page, then a request on which both clients fail. *)
Lemma failed_request_ends_the_pass_witness :
  Stats.result
    (Stats.get_stats Sample.picky
       ([Sample.ok Sample.first_page]
        ++ Queries.Round (Queries.Raises Py.ClientError) (Queries.Raises Py.ClientError)
        :: [Sample.ok Sample.last_page]))
  = Py.Raised Py.ClientError.
Proof.
  apply (failed_request_ends_the_pass Sample.picky [Sample.ok Sample.first_page]).
  constructor; [reflexivity | constructor].
Defined.

(** * What the language table keeps *)

Section TableFacts.
Import Py Queries Stats Probe.

Lemma keeps_refl (langs : gmap string lang_stat) : keeps langs langs.
Proof. intros name v Hv. exists v. split; [exact Hv | split; [reflexivity | lia]]. Qed.

Lemma keeps_trans (l1 l2 l3 : gmap string lang_stat) :
  keeps l1 l2 -> keeps l2 l3 -> keeps l1 l3.
Proof.
  intros H12 H23 name v Hv.
  destruct (H12 name v Hv) as (v2 & Hv2 & Hc2 & Ho2).
  destruct (H23 name v2 Hv2) as (v3 & Hv3 & Hc3 & Ho3).
  exists v3. split; [exact Hv3 | split; [congruence | lia]].
Qed.

Lemma keeps_size_refl (langs : gmap string lang_stat) : keeps_size langs langs.
Proof. intros name v Hv. exists v. split; [exact Hv | lia]. Qed.

Lemma keeps_size_trans (l1 l2 l3 : gmap string lang_stat) :
  keeps_size l1 l2 -> keeps_size l2 l3 -> keeps_size l1 l3.
Proof.
  intros H12 H23 name v Hv.
  destruct (H12 name v Hv) as (v2 & Hv2 & Hs2).
  destruct (H23 name v2 Hv2) as (v3 & Hv3 & Hs3).
  exists v3. split; [exact Hv3 | lia].
Qed.

(** Lines 336-344: an entry that exists keeps its colour and gains one
    occurrence; no entry is removed. *)
Lemma add_language_keeps (ex : gset string) (langs : gmap string lang_stat)
    (lang : Json.lang_edge) :
  keeps langs (add_language ex langs lang)
  /\ (0 <= lang_size lang -> keeps_size langs (add_language ex langs lang)).
Proof.
  unfold add_language. cbn zeta.
  case_decide; [split; [apply keeps_refl | intros _; apply keeps_size_refl]|].
  destruct (langs !! lang_name lang) as [v0|] eqn:Hv0.
  - split.
    + intros name v Hv. destruct (decide (lang_name lang = name)) as [<-|Hne].
      * rewrite lookup_insert_eq. eexists. split; [reflexivity|].
        rewrite Hv0 in Hv. injection Hv as <-. cbn. split; [reflexivity | lia].
      * rewrite lookup_insert_ne by exact Hne. apply keeps_refl, Hv.
    + intros Hs name v Hv. destruct (decide (lang_name lang = name)) as [<-|Hne].
      * rewrite lookup_insert_eq. eexists. split; [reflexivity|].
        rewrite Hv0 in Hv. injection Hv as <-. cbn. lia.
      * rewrite lookup_insert_ne by exact Hne. apply keeps_size_refl, Hv.
  - assert (Hne : forall name v, langs !! name = Some v -> lang_name lang <> name).
    { intros name v Hv Heq. rewrite Heq in Hv0. congruence. }
    split.
    + intros name v Hv. rewrite lookup_insert_ne by (eapply Hne, Hv).
      apply keeps_refl, Hv.
    + intros _ name v Hv. rewrite lookup_insert_ne by (eapply Hne, Hv).
      apply keeps_size_refl, Hv.
Qed.

Lemma foldl_add_language_keeps (ex : gset string) (es : list Json.lang_edge) :
  forall langs : gmap string lang_stat,
  keeps langs (foldl (add_language ex) langs es)
  /\ (Forall (fun e => 0 <= lang_size e) es ->
      keeps_size langs (foldl (add_language ex) langs es)).
Proof.
  induction es as [|e es IH]; intros langs; cbn [foldl].
  - split; [apply keeps_refl | intros _; apply keeps_size_refl].
  - destruct (add_language_keeps ex langs e) as (Hk & Hs).
    destruct (IH (add_language ex langs e)) as (Hk' & Hs'). split.
    + eapply keeps_trans; eassumption.
    + intros Hall. inversion Hall as [|? ? He Hes]; subst.
      eapply keeps_size_trans; [apply Hs, He | apply Hs', Hes].
Qed.

Lemma add_repo_keeps (ex : gset string) (s : t) (r : option Json.repo_node) :
  keeps (the_languages s) (the_languages (add_repo ex s r))
  /\ (match r with
      | Some r => Forall (fun e => 0 <= lang_size e) (repo_edges r)
      | None => True
      end -> keeps_size (the_languages s) (the_languages (add_repo ex s r))).
Proof.
  unfold add_repo. destruct r as [r|];
    [|split; [apply keeps_refl | intros _; apply keeps_size_refl]].
  case_decide; [split; [apply keeps_refl | intros _; apply keeps_size_refl]|].
  cbn. apply foldl_add_language_keeps.
Qed.

Lemma foldl_add_repo_keeps (ex : gset string) (rs : list (option Json.repo_node)) :
  forall s : t,
  keeps (the_languages s) (the_languages (foldl (add_repo ex) s rs))
  /\ (Forall (fun repo => match repo with
                          | Some r => Forall (fun e => 0 <= lang_size e) (repo_edges r)
                          | None => True
                          end) rs ->
      keeps_size (the_languages s) (the_languages (foldl (add_repo ex) s rs))).
Proof.
  induction rs as [|r rs IH]; intros s; cbn [foldl].
  - split; [apply keeps_refl | intros _; apply keeps_size_refl].
  - destruct (add_repo_keeps ex s r) as (Hk & Hs).
    destruct (IH (add_repo ex s r)) as (Hk' & Hs'). split.
    + eapply keeps_trans; eassumption.
    + intros Hall. inversion Hall as [|? ? He Hes]; subst.
      eapply keeps_size_trans; [apply Hs, He | apply Hs', Hes].
Qed.

Lemma candidates_nonneg (ig : bool) (raw : Json.overview) :
  sizes_nonneg raw ->
  Forall (fun repo => match repo with
                      | Some r => Forall (fun e => 0 <= lang_size e) (repo_edges r)
                      | None => True
                      end) (candidates ig (viewer_of raw)).
Proof.
  unfold sizes_nonneg, candidates. cbn [negb]. destruct ig; cbn [negb]; [|auto].
  intros Hall. apply Forall_app in Hall. apply Hall.
Qed.

Lemma absorb_keeps (ex : gset string) (s : t) (raw : Json.overview) :
  keeps (the_languages s) (the_languages (absorb ex s raw))
  /\ (sizes_nonneg raw -> keeps_size (the_languages s) (the_languages (absorb ex s raw))).
Proof.
  unfold absorb.
  match goal with |- context [foldl (add_repo ex) ?s0 ?rs] =>
    destruct (foldl_add_repo_keeps ex rs s0) as (Hk & Hs)
  end.
  split; [exact Hk|]. intros Hn. apply Hs. apply candidates_nonneg, Hn.
Qed.

(** While pages are absorbed the table only grows: after any further
    pages every language is still there, with the colour it received
    when it was first met and at least as many occurrences; and when no
    edge of the further pages reports a negative size, with at least the
    same size. *)
Theorem table_only_grows (ex : gset string) (s : t) (pages_so_far more : list Json.overview) :
  let before := the_languages (foldl (absorb ex) s pages_so_far) in
  let after := the_languages (foldl (absorb ex) s (pages_so_far ++ more)) in
  keeps before after
  /\ (Forall sizes_nonneg more -> keeps_size before after).
Proof.
  cbn zeta. rewrite foldl_app. generalize (foldl (absorb ex) s pages_so_far) as s0.
  induction more as [|raw more IH]; intros s0; cbn [foldl].
  - split; [apply keeps_refl | intros _; apply keeps_size_refl].
  - destruct (absorb_keeps ex s0 raw) as (Hk & Hs).
    destruct (IH (absorb ex s0 raw)) as (Hk' & Hs'). split.
    + eapply keeps_trans; eassumption.
    + intros Hall. inversion Hall as [|? ? He Hes]; subst.
      eapply keeps_size_trans; [apply Hs, He | apply Hs', Hes].
Qed.

(** Like the counters, the name is assigned on every page (lines
    308-310): after a pass that absorbed at least one page it is the
    name of the page absorbed last, its login when that page has no
    name, and [No Name] when it has neither. *)
Theorem name_follows_last_page (s : t) (net : list (round Json.overview))
    (raw : Json.overview) :
  last (absorbed net) = Some raw ->
  _name (self_after (get_stats s net))
  = Some (match Json.name (viewer_of raw), Json.login (viewer_of raw) with
          | Some n, _ => n
          | None, Some l => l
          | None, None => "No Name"
          end).
Proof.
  intros Hl. destruct (get_stats_scalars s net) as ((-> & _) & _).
  unfold at_loop_exit.
  destruct (foldl_absorb_last (exclude_langs_lower s) (absorbed net)
              (enter_get_stats s) raw Hl) as (-> & _).
  unfold display_name.
  destruct (Json.name (viewer_of raw)), (Json.login (viewer_of raw)); reflexivity.
Qed.

End TableFacts.

(** The sample pages carry the login [octocat] and no name. *)
Lemma name_follows_last_page_witness :
  Stats._name (Stats.self_after (Stats.get_stats Sample.picky Sample.two_pages))
  = Some "octocat".
Proof.
  exact (name_follows_last_page Sample.picky Sample.two_pages Sample.last_page eq_refl).
Defined.

(** The table after the first sample page and after both. *)
Lemma table_only_grows_witness :
  Probe.keeps_size
    (Stats.the_languages (foldl (Stats.absorb ∅) Sample.fresh [Sample.first_page]))
    (Stats.the_languages
       (foldl (Stats.absorb ∅) Sample.fresh ([Sample.first_page] ++ [Sample.last_page]))).
Proof.
  apply (table_only_grows ∅ Sample.fresh [Sample.first_page] [Sample.last_page]).
  repeat constructor; vm_compute; discriminate.
Defined.

(** * More on the lazy properties *)

Section StableFacts.
Import Py Queries Stats EventLoop Probe.

Lemma finish_is_cached (f : field) (obj : t) (v : value) :
  populated obj -> finish f obj = Returned v -> cached f obj = Some v.
Proof.
  intros ([n Hn] & [l Hl] & [r Hr] & [i Hi] & [p Hp]).
  destruct f; cbn; rewrite ?Hn, ?Hl, ?Hr, ?Hi, ?Hp; cbn; intros [= <-]; reflexivity.
Qed.

(** A read that returned is stable: the same property read again, right
    after it, returns the same value without any request and without
    changing the object, whatever the service would answer. *)
Theorem returned_read_is_stable (f : field) (obj : t)
    (net later : list (round Json.overview)) (v : value) :
  result (read f obj net) = Returned v ->
  read f (self_after (read f obj net)) later
  = Run (Returned v) (self_after (read f obj net)) later [].
Proof.
  intros Hr.
  assert (Hcv : cached f (self_after (read f obj net)) = Some v).
  { rewrite read_in_steps_correct in Hr |- *. unfold read_in_steps in Hr |- *.
    destruct (cached f obj) as [v0|] eqn:Hc; cbn [result self_after] in Hr |- *.
    - injection Hr as <-. exact Hc.
    - pose proof (get_stats_populates obj net) as Hpop.
      destruct (result (get_stats obj net)) as [[]|e|]; [|discriminate..].
      apply finish_is_cached; [apply Hpop; reflexivity | exact Hr]. }
  rewrite (read_in_steps_correct f (self_after (read f obj net)) later).
  unfold read_in_steps. rewrite Hcv. reflexivity.
Qed.

End StableFacts.

(** The name read twice on the sample pages. *)
Lemma returned_read_is_stable_witness :
  Stats.result
    (Stats.read Stats.FName
       (Stats.self_after (Stats.read Stats.FName Sample.fresh Sample.two_pages)) [])
  = Py.Returned (Stats.VName "octocat").
Proof.
  rewrite (returned_read_is_stable Stats.FName Sample.fresh Sample.two_pages []
             (Stats.VName "octocat") eq_refl).
  reflexivity.
Defined.

(** * More on the REST ladder *)

Section LadderFacts.
Import Py Queries Probe.
Context {R : Type} `{PyDict R}.

Lemma rest_loop_turned_away (n i : nat) (path : string)
    (params : list (string * string)) (net : nat -> attempt R) :
  turned_away (net i) = true ->
  rest_loop (S n) i path params net
  = (fst (rest_loop n (S i) (strip_slash path) params net),
     [Get Aiohttp (strip_slash path) params; Print msg_aio_rest;
      Get Requests (strip_slash path) params]
       ++ snd (rest_loop n (S i) (strip_slash path) params net)).
Proof.
  unfold turned_away. intros Ht. cbn [rest_loop]. unfold rest_iteration, rest_fallback.
  destruct (aio_get (net i)) as [e|code b]; [|discriminate].
  destruct (blocking_get (net i)) as [e'|code b]; [discriminate|].
  apply andb_true_iff in Ht as [H200 H202].
  apply negb_true_iff, bool_decide_eq_false in H200.
  apply negb_true_iff, bool_decide_eq_false in H202.
  rewrite decide_False by exact H202. rewrite decide_False by exact H200.
  destruct (rest_loop n (S i) (strip_slash path) params net). reflexivity.
Qed.

Lemma rest_loop_all_turned_away (n : nat) : forall (i : nat) (path : string)
    (params : list (string * string)) (net : nat -> attempt R),
  (forall j, (j < n)%nat -> turned_away (net (i + j)%nat) = true) ->
  let r := rest_loop n i path params net in
  fst r = Returned (Some dict0)
  /\ sleeps (snd r) = 0%nat
  /\ requests_via Aiohttp (snd r) = n
  /\ requests_via Requests (snd r) = n.
Proof.
  induction n as [|n IH]; intros i path params net Hall; cbn zeta.
  - cbn. auto.
  - rewrite rest_loop_turned_away
      by (rewrite <- (Nat.add_0_r i); apply Hall; lia).
    destruct (IH (S i) (strip_slash path) params net) as (Hr & Hs & Ha & Hb).
    { intros j Hj. replace (S i + j)%nat with (i + S j)%nat by lia. apply Hall. lia. }
    cbn [fst snd]. unfold sleeps, requests_via in *.
    rewrite !count_app, Hs, Ha, Hb. cbn. auto.
Qed.

(** A status other than 200 and 202 on the blocking client is neither
    returned nor waited for: the loop goes straight to its next
    iteration.  When every attempt fails on the asynchronous client and
    is turned away on the blocking one, the call makes 60 requests on
    each client without a single sleep and returns [dict()]. *)
Theorem turned_away_is_retried_at_once (path : string)
    (params : option (list (string * string))) (net : nat -> attempt R) :
  (forall i, (i < 60)%nat -> turned_away (net i) = true) ->
  let r := query_rest path params net in
  fst r = Returned (Some dict0)
  /\ sleeps (snd r) = 0%nat
  /\ requests_via Aiohttp (snd r) = 60%nat
  /\ requests_via Requests (snd r) = 60%nat.
Proof.
  intros Hall. unfold query_rest.
  apply (rest_loop_all_turned_away 60 0 path (default [] params) net).
  intros j Hj. apply Hall, Hj.
Qed.

(** After [k] answers 202, an attempt on which the asynchronous client
    fails is settled by the blocking client alone: its 200 is returned
    with the body as it decodes, [None] included, and its failure, or
    that of its body, reaches the caller as an exception. *)
Theorem fallback_settles_the_call (path : string)
    (params : option (list (string * string))) (net : nat -> attempt R)
    (k : nat) (e0 : exn) :
  (k < 60)%nat ->
  (forall j, (j < k)%nat -> busy (net j) = true) ->
  aio_get (net k) = NoResponse e0 ->
  let r := query_rest path params net in
  (forall v, blocking_get (net k) = Status 200 (Body v) -> fst r = Returned v)
  /\ (forall e, blocking_get (net k) = Status 200 (BadBody e) -> fst r = Raised e)
  /\ (forall e, blocking_get (net k) = NoResponse e -> fst r = Raised e).
Proof.
  intros Hk Hbusy Ha. cbn zeta. unfold query_rest.
  destruct (rest_loop_busy_prefix k (60 - k) 0 path (default [] params) net)
    as (path' & evs & Heq & _); [exact Hbusy|].
  replace (k + (60 - k))%nat with 60%nat in Heq by lia.
  rewrite Heq. cbn [fst Nat.add].
  destruct (60 - k)%nat as [|m] eqn:Hm; [lia|].
  cbn [rest_loop]. unfold rest_iteration, rest_fallback. rewrite Ha.
  repeat split; intros ? Hb; rewrite Hb; reflexivity.
Qed.

Lemma paths_app (l1 l2 : list event) : paths (l1 ++ l2) = paths l1 ++ paths l2.
Proof. unfold paths. apply omap_app. Qed.

Lemma rest_iteration_paths (path : string) (params : list (string * string))
    (a : attempt R) :
  Forall (fun p => p = path) (paths (snd (rest_iteration path params a))).
Proof.
  unfold rest_iteration, rest_fallback.
  destruct (aio_get a) as [e|code b].
  - destruct (blocking_get a) as [e'|code' b']; [repeat constructor|].
    repeat case_decide; [|destruct b'|]; repeat constructor.
  - case_decide; [repeat constructor|].
    destruct b as [e|[v|]]; [|repeat constructor..].
    destruct (blocking_get a) as [e'|code' b']; [repeat constructor|].
    repeat case_decide; [|destruct b'|]; repeat constructor.
Qed.

Lemma rest_loop_paths (n : nat) : forall (i : nat) (path : string)
    (params : list (string * string)) (net : nat -> attempt R),
  Forall (fun p => exists k, (1 <= k <= n)%nat /\ p = Nat.iter k strip_slash path)
         (paths (snd (rest_loop n i path params net))).
Proof.
  induction n as [|n IH]; intros i path params net; [constructor|].
  cbn [rest_loop].
  pose proof (rest_iteration_paths (strip_slash path) params (net i)) as Hit.
  assert (Hhead : Forall (fun p => exists k, (1 <= k <= S n)%nat
                                             /\ p = Nat.iter k strip_slash path)
                    (paths (snd (rest_iteration (strip_slash path) params (net i))))).
  { eapply Forall_impl; [exact Hit|]. intros p ->. exists 1%nat. split; [lia | reflexivity]. }
  destruct (rest_iteration (strip_slash path) params (net i)) as [[res|] evs];
    cbn [snd] in *; [exact Hhead|].
  specialize (IH (S i) (strip_slash path) params net).
  destruct (rest_loop n (S i) (strip_slash path) params net) as [res evs'].
  cbn [snd] in *. rewrite paths_app. apply Forall_app. split; [exact Hhead|].
  eapply Forall_impl; [exact IH|]. intros p (k & Hk & ->).
  exists (S k). split; [lia|]. rewrite Nat.iter_succ_r. reflexivity.
Qed.

(** The leading slash is stripped at the start of every iteration
    (lines 82-83), not once: every request of a call goes to the path
    with between 1 and 60 leading slashes stripped, and when the path
    has at most one leading slash all requests go to the same path. *)
Theorem path_is_stripped_every_iteration (path : string)
    (params : option (list (string * string))) (net : nat -> attempt R) :
  let tr := snd (query_rest path params net) in
  Forall (fun p => exists k, (1 <= k <= 60)%nat /\ p = Nat.iter k strip_slash path)
         (paths tr)
  /\ (strip_slash (strip_slash path) = strip_slash path ->
      Forall (fun p => p = strip_slash path) (paths tr)).
Proof.
  cbn zeta. unfold query_rest.
  pose proof (rest_loop_paths 60 0 path (default [] params) net) as Hall.
  split; [exact Hall|].
  intros Hidem. eapply Forall_impl; [exact Hall|].
  intros p (k & Hk & ->). destruct k as [|k]; [lia|]. clear Hk.
  induction k as [|k IH]; [reflexivity|].
  change (Nat.iter (S (S k)) strip_slash path)
    with (strip_slash (Nat.iter (S k) strip_slash path)).
  rewrite IH. exact Hidem.
Qed.

End LadderFacts.

(** An endpoint that answers 500 on the blocking client every time. *)
Lemma turned_away_is_retried_at_once_witness :
  Queries.sleeps (snd (Queries.query_rest "/repos/a/b" None Probe.always_500)) = 0%nat
  /\ Queries.requests (snd (Queries.query_rest "/repos/a/b" None Probe.always_500))
     = 120%nat.
Proof.
  destruct (turned_away_is_retried_at_once "/repos/a/b" None Probe.always_500)
    as (_ & Hs & _); [reflexivity|].
  split; [exact Hs | vm_compute; reflexivity].
Defined.

(** The blocking client answers 200 with a body that decodes to
    [None]: the call returns [None]. *)
Lemma fallback_settles_the_call_witness :
  fst (Queries.query_rest "/repos/a/b" None Probe.blocking_200_null) = Py.Returned None.
Proof.
  refine (proj1 (fallback_settles_the_call "/repos/a/b" None Probe.blocking_200_null
                   0 Py.ClientError _ _ eq_refl) None eq_refl);
    [lia | intros j Hj; lia].
Defined.

(** A path with two leading slashes is requested under two different
    paths when the first answer is 202. *)
Lemma path_with_two_slashes_changes :
  Probe.paths (snd (Queries.query_rest "//repos" None Sample.three_202_then_200))
  = ["/repos"; "repos"; "repos"; "repos"].
Proof. vm_compute. reflexivity. Qed.

(** * The retry ladder of [query_rest] *)

Section RetryFacts.
Import Py Queries Probe.
Context {R : Type} `{PyDict R}.


End RetryFacts.



(** * The text of the overview query *)

Section TextFacts.
Import QueryText.

Lemma append_cancel_l (a x y : string) : a +:+ x = a +:+ y -> x = y.
Proof.
  induction a as [|c a IH]; cbn [String.append]; [auto|].
  intros Heq. injection Heq as Heq. apply IH, Heq.
Qed.

Lemma list_of_append (a b : string) :
  list_ascii_of_string (a +:+ b) = list_ascii_of_string a ++ list_ascii_of_string b.
Proof.
  induction a as [|c a IH]; simpl; [reflexivity|].
  rewrite IH. reflexivity.
Qed.

Lemma list_of_string_inj (a b : string) :
  list_ascii_of_string a = list_ascii_of_string b -> a = b.
Proof.
  intros Heq. rewrite <- (string_of_list_ascii_of_string a),
    <- (string_of_list_ascii_of_string b), Heq. reflexivity.
Qed.

Lemma append_cancel_r (x y t : string) : x +:+ t = y +:+ t -> x = y.
Proof.
  intros Heq. apply list_of_string_inj.
  apply (f_equal list_ascii_of_string) in Heq. rewrite !list_of_append in Heq.
  apply app_inv_tail in Heq. exact Heq.
Qed.

(** Two texts that agree up to their first double quote agree before it
    and after it. *)
Lemma first_quote (c : string) : forall (c' r r' : string),
  quote_free c = true -> quote_free c' = true ->
  c +:+ String quote_char r = c' +:+ String quote_char r' ->
  c = c' /\ r = r'.
Proof.
  induction c as [|a c IH]; intros c' r r' Hc Hc' Heq; destruct c' as [|a' c'];
    cbn [String.append quote_free] in *.
  - injection Heq as Heq. auto.
  - injection Heq as Ha _. subst a'.
    rewrite Ascii.eqb_refl in Hc'. discriminate.
  - injection Heq as Ha _. subst a.
    rewrite Ascii.eqb_refl in Hc. discriminate.
  - injection Heq as Ha Heq. subst a'.
    apply andb_true_iff in Hc as [_ Hc]. apply andb_true_iff in Hc' as [_ Hc'].
    destruct (IH c' r r' Hc Hc' Heq) as [-> ->]. auto.
Qed.

Lemma string_tail (a b : ascii) (x y : string) : String a x = String b y -> x = y.
Proof. intros Heq. injection Heq as _ Heq. exact Heq. Qed.

Lemma append_cons (a : ascii) (c x : string) :
  String a c +:+ x = String a (c +:+ x).
Proof. reflexivity. Qed.

Lemma append_closing_quote (c rest : string) :
  (c +:+ String quote_char EmptyString) +:+ rest = c +:+ String quote_char rest.
Proof.
  generalize quote_char as q. intros q.
  induction c as [|a c IH]; [reflexivity|].
  rewrite !append_cons, IH. reflexivity.
Qed.

Lemma quote_is_not_n (r r' : string) : String quote_char r <> String "n" r'.
Proof. unfold quote_char. cbn. discriminate. Qed.

(** The rendering of a cursor tells the cursors apart: no cursor is
    [null], a cursor is its text between double quotes, never [null],
    and two cursors with the same rendering are equal. *)
Lemma render_cursor_injective (c1 c2 : option string) :
  render_cursor c1 = render_cursor c2 -> c1 = c2.
Proof.
  destruct c1 as [c1|], c2 as [c2|]; cbn [render_cursor]; intros Heq.
  - apply string_tail in Heq. apply append_cancel_r in Heq. subst. reflexivity.
  - destruct (quote_is_not_n _ _ Heq).
  - symmetry in Heq. destruct (quote_is_not_n _ _ Heq).
  - reflexivity.
Qed.

(** The two cursors can be read back from the text of the overview
    query: two calls of [repos_overview] whose owned cursors hold no
    double quote produce the same document only for the same cursors.
    The template itself holds no double quote. *)
Theorem overview_documents_differ (contrib owned contrib' owned' : option string) :
  cursor_quote_free owned = true -> cursor_quote_free owned' = true ->
  repos_overview contrib owned = repos_overview contrib' owned' ->
  contrib = contrib' /\ owned = owned'.
Proof.
  intros Hq Hq' Heq. unfold repos_overview in Heq.
  apply append_cancel_l in Heq.
  assert (Hrest : forall rest rest' : string,
    overview_middle +:+ render_cursor contrib +:+ rest
    = overview_middle +:+ render_cursor contrib' +:+ rest' ->
    rest = rest' -> contrib = contrib').
  { intros rest rest' Hm ->. apply append_cancel_l in Hm.
    apply append_cancel_r in Hm. apply render_cursor_injective, Hm. }
  destruct owned as [c|], owned' as [c'|]; cbn [render_cursor] in Heq;
    rewrite !append_cons in Heq.
  - apply string_tail in Heq. cbn [cursor_quote_free] in Hq, Hq'.
    rewrite !append_closing_quote in Heq.
    destruct (first_quote c c' _ _ Hq Hq' Heq) as [-> Hm].
    split; [|reflexivity]. exact (Hrest _ _ Hm eq_refl).
  - destruct (quote_is_not_n _ _ Heq).
  - symmetry in Heq. destruct (quote_is_not_n _ _ Heq).
  - do 4 (apply string_tail in Heq). split; [|reflexivity].
    exact (Hrest _ _ Heq eq_refl).
Qed.

(** The sizes of the three pieces of the template, and what they hold. *)
Lemma overview_template_sizes :
  String.length overview_head = 385%nat
  /\ String.length overview_middle = 659%nat
  /\ String.length overview_tail = 329%nat
  /\ quote_free (overview_head +:+ overview_middle +:+ overview_tail) = true.
Proof. repeat split; vm_compute; reflexivity. Qed.

End TextFacts.

(** The first request of a pass and a later one. *)
Lemma overview_documents_differ_witness :
  QueryText.repos_overview None None
  <> QueryText.repos_overview (Some "Y3Vyc29yOjI=") None.
Proof.
  intros Heq.
  destruct (overview_documents_differ None None (Some "Y3Vyc29yOjI=") None
              eq_refl eq_refl Heq) as [Hc _].
  discriminate Hc.
Defined.
